(** * Snippet session manager of coc.nvim (src/snippet/manager.ts)

    A shallow embedding of [SnippetManager] and the proofs of its
    specification.  The manager is a single mutable object whose methods
    are asynchronous; every method is embedded as a computation in a small
    monad that threads the manager's fields, reads the host environment,
    records the calls issued to the editor and carries JavaScript
    exceptions (promise rejections).  Each handler runs to completion
    before the next one starts, as the single task queue of the editor
    client does. *)

From stdpp Require Import base strings gmap list.
From Stdlib Require Import ZArith Lia Ascii.

Local Open Scope Z_scope.

(** ** Host side: errors, calls, documents *)

(** The remote procedures the manager invokes on the editor. *)
Inductive Rpc :=
  | RpcLine          (* nvim.call('line', ['.']) *)
  | RpcEnable        (* nvim.call('coc#snippet#enable') *)
  | RpcDisable       (* nvim.call('coc#snippet#disable') *)
  | RpcShowChoices   (* nvim.call('coc#snippet#show_choices', ...) *)
  | RpcRangeSelect   (* nvim.call('coc#snippet#range_select', ...) *)
  | RpcSetLines.     (* buffer.setLines(...) *)

(** What a method can throw: a dereference of [null]/[undefined], a
    rejected remote call, or the [Snippet] constructor failing on the
    template. *)
Inductive Err :=
  | TypeError
  | RpcError (f : Rpc)
  | ParseError.

(** The observable actions of the manager, in the order they are issued.
    A line number that the source computes from an unset field is [None]. *)
Inductive Event :=
  | CallLine
  | CallEnable
  | CallDisable
  | CallShowChoices (lnum : option Z) (col len : Z) (values : list string)
  | CallRangeSelect (lnum : option Z) (col len : Z)
  | SetLines (target : string) (text : string) (start : option Z)
  | LogError (e : Err).

Definition is_write (ev : Event) : bool :=
  match ev with SetLines _ _ _ => true | _ => false end.

Definition is_jump (ev : Event) : bool :=
  match ev with
  | CallShowChoices _ _ _ _ | CallRangeSelect _ _ _ => true
  | _ => false
  end.

Definition is_log (ev : Event) : bool :=
  match ev with LogError _ => true | _ => false end.

Definition count_writes (t : list Event) : nat := length (filter is_write t).

(** Modelled from the spec: the document adapter (src/model/document.ts is
    not part of the sources).  Line storage with a change counter; the line
    count is the number of stored lines and [getline] returns the stored
    line, the empty string where there is none. *)
Record Document := mkDocument {
  doc_uri : string;
  doc_lines : list string;
  doc_changedtick : Z
}.

Definition doc_lineCount (d : Document) : Z := Z.of_nat (length (doc_lines d)).

Definition line_exists (d : Document) (n : option Z) : bool :=
  match n with
  | Some k => (0 <=? k) && (k <? doc_lineCount d)
  | None => false
  end.

Definition getline (d : Document) (n : option Z) : string :=
  match n with
  | Some k => if 0 <=? k then default "" (doc_lines d !! Z.to_nat k) else ""
  | None => ""
  end.

(** The environment a handler runs in: the documents of the workspace, the
    line of the cursor as the editor reports it (1-based), and which remote
    calls are rejected. *)
Record Env := mkEnv {
  documents : gmap string Document;
  cursor_line : Z;
  rpc_fails : Rpc -> bool
}.

(** [workspace.getDocument(uri)]; the uri is [None] while the field is
    still undefined. *)
Definition getDocument (env : Env) (u : option string) : option Document :=
  match u with
  | Some k => documents env !! k
  | None => None
  end.

(** Modelled from the spec: the result of the diff utility
    (src/util/diff.ts is not part of the sources): start offset, removed
    length and inserted text of the single replaced region. *)
Record ChangeItem := mkChange {
  change_offset : Z;
  change_removed : Z;
  change_added : string
}.

(** [DidChangeTextDocumentParams]: the handler reads [textDocument.uri]. *)
Record DidChangeTextDocumentParams := mkParams {
  textDocument_uri : string
}.

(** ** Numbers

    JavaScript numbers are IEEE 754 doubles.  Every number the manager
    holds is an integer, kept here as a [Z]; a sum or difference is the
    double nearest to the exact result, ties going to the even
    significand.  Integers of magnitude up to 2^53 are doubles, so the
    result is exact there; above, doubles are [2 ^ (log2 a - 52)] apart.
    (A double plus or minus one never overflows, so no infinity arises.)

    The rounding is modelled where the manager computes with a number a
    template chooses, the tab-stop index of [jumpNext] and [jumpPrev].
    Its other sums are on line numbers, columns and change counters the
    editor supplies, which index the lines and changes of a buffer and
    stay far below 2^53, where the arithmetic of doubles is exact. *)
Definition two53 : Z := 9007199254740992.

Definition round_to_double (n : Z) : Z :=
  let a := Z.abs n in
  if a <=? two53 then n else
  let ulp := 2 ^ (Z.log2 a - 52) in
  let q := a / ulp in
  let r := a mod ulp in
  let q' := if 2 * r <? ulp then q
            else if ulp <? 2 * r then q + 1
            else if Z.even q then q else q + 1 in
  Z.sgn n * (q' * ulp).

Definition js_add (x y : Z) : Z := round_to_double (x + y).
Definition js_sub (x y : Z) : Z := round_to_double (x - y).

(** ** The template model, as the manager uses it

    [Snippet] (src/snippet/snippet.ts), [Placeholder] (src/snippet/parser.ts)
    and [getChangeItem] (src/util/diff.ts) are imported by the manager and
    are not part of the sources; the manager is verified against their
    interface.  A [Placeholder] is a reference to a node of the tree owned
    by the snippet, so what a node renders to is read through the snippet
    that holds it. *)
Class SnippetModel (Snippet Placeholder : Type) := {
  (* new Snippet(content); None when the constructor throws *)
  newSnippet : string -> option Snippet;
  toString : Snippet -> string;
  hasPlaceholder : Snippet -> bool;
  firstPlaceholder : Snippet -> option Placeholder;
  maxIndex : Snippet -> Z;
  (* snippet.textmateSnippet.placeholders *)
  placeholders : Snippet -> list Placeholder;
  findPlaceholder : Snippet -> ChangeItem -> Z -> option Placeholder * Z;
  getNewText : Snippet -> ChangeItem -> Placeholder -> Z -> string;
  (* mutates the snippet in place; the result is the snippet afterwards *)
  replaceWith : Snippet -> Placeholder -> string -> Snippet;
  offset : Snippet -> Placeholder -> Z;
  (* marker.index *)
  ph_index : Placeholder -> Z;
  (* marker.toString().length *)
  ph_length : Snippet -> Placeholder -> Z;
  (* marker.choice, as choice.options.map(o => o.value) *)
  ph_choice : Snippet -> Placeholder -> option (list string);
  getChangeItem : string -> string -> option ChangeItem
}.

Section Manager.

Context {Snippet Placeholder : Type} `{!SnippetModel Snippet Placeholder}.

(** The fields of [SnippetManager].  A field without initialiser is
    [None] until it is first assigned. *)
Record Manager := mkManager {
  snippet : option Snippet;
  activted : bool;
  startLnum : option Z;
  lineCount : option Z;
  uri : option string;
  currIndex : Z;
  changedtick : option Z
}.

Definition initial : Manager :=
  {| snippet := None; activted := false; startLnum := None;
     lineCount := None; uri := None; currIndex := -1; changedtick := None |}.

(** *** The monad of the methods *)

Record Outcome (A : Type) := mkOutcome {
  result : Err + A;
  final : Manager;
  trace : list Event
}.
Arguments mkOutcome {A}.
Arguments result {A}.
Arguments final {A}.
Arguments trace {A}.

Definition M (A : Type) : Type := Env -> Manager -> Outcome A.

Definition ret {A} (a : A) : M A := fun _ m => mkOutcome (inr a) m [].

Definition throw {A} (e : Err) : M A := fun _ m => mkOutcome (inl e) m [].

Definition bind {A B} (c : M A) (k : A -> M B) : M B := fun env m =>
  match c env m with
  | mkOutcome (inl e) m1 t1 => mkOutcome (inl e) m1 t1
  | mkOutcome (inr a) m1 t1 =>
      match k a env m1 with
      | mkOutcome r m2 t2 => mkOutcome r m2 (t1 ++ t2)
      end
  end.

(** [try { c } catch (e) { h(e) }], also [c.catch(h)]. *)
Definition try_catch {A} (c : M A) (h : Err -> M A) : M A := fun env m =>
  match c env m with
  | mkOutcome (inl e) m1 t1 =>
      match h e env m1 with
      | mkOutcome r m2 t2 => mkOutcome r m2 (t1 ++ t2)
      end
  | mkOutcome (inr a) m1 t1 => mkOutcome (inr a) m1 t1
  end.

Definition get : M Manager := fun _ m => mkOutcome (inr m) m [].
Definition ask : M Env := fun env m => mkOutcome (inr env) m [].
Definition modify (f : Manager -> Manager) : M unit :=
  fun _ m => mkOutcome (inr tt) (f m) [].
Definition emit (ev : Event) : M unit := fun _ m => mkOutcome (inr tt) m [ev].

Notation "'let!' x ':=' c 'in' k" := (bind c (fun x => k))
  (at level 10, x name, c at level 100, k at level 200).
Notation "c ';;' k" := (bind c (fun _ => k))
  (at level 100, k at level 200, right associativity).

(** Reading a property of a value that may be [null] or [undefined]. *)
Definition deref {A} (o : option A) : M A :=
  match o with
  | Some a => ret a
  | None => throw TypeError
  end.

Definition set_snippet (s : option Snippet) : M unit :=
  modify (fun m => {| snippet := s; activted := activted m;
    startLnum := startLnum m; lineCount := lineCount m; uri := uri m;
    currIndex := currIndex m; changedtick := changedtick m |}).
Definition set_activted (b : bool) : M unit :=
  modify (fun m => {| snippet := snippet m; activted := b;
    startLnum := startLnum m; lineCount := lineCount m; uri := uri m;
    currIndex := currIndex m; changedtick := changedtick m |}).
Definition set_startLnum (n : option Z) : M unit :=
  modify (fun m => {| snippet := snippet m; activted := activted m;
    startLnum := n; lineCount := lineCount m; uri := uri m;
    currIndex := currIndex m; changedtick := changedtick m |}).
Definition set_lineCount (n : option Z) : M unit :=
  modify (fun m => {| snippet := snippet m; activted := activted m;
    startLnum := startLnum m; lineCount := n; uri := uri m;
    currIndex := currIndex m; changedtick := changedtick m |}).
Definition set_uri (u : option string) : M unit :=
  modify (fun m => {| snippet := snippet m; activted := activted m;
    startLnum := startLnum m; lineCount := lineCount m; uri := u;
    currIndex := currIndex m; changedtick := changedtick m |}).
Definition set_currIndex (i : Z) : M unit :=
  modify (fun m => {| snippet := snippet m; activted := activted m;
    startLnum := startLnum m; lineCount := lineCount m; uri := uri m;
    currIndex := i; changedtick := changedtick m |}).
Definition set_changedtick (t : option Z) : M unit :=
  modify (fun m => {| snippet := snippet m; activted := activted m;
    startLnum := startLnum m; lineCount := lineCount m; uri := uri m;
    currIndex := currIndex m; changedtick := t |}).

(** *** Calls to the editor *)

(** A remote call: the call is issued, then it is rejected or returns. *)
Definition nvim_call (f : Rpc) (ev : Event) : M unit :=
  emit ev ;;
  let! env := ask in
  if rpc_fails env f then throw (RpcError f) else ret tt.

(** [nvim.call('line', ['.'])]. *)
Definition nvim_line : M Z :=
  nvim_call RpcLine CallLine ;;
  let! env := ask in
  ret (cursor_line env).

(** Modelled from the spec: [buffer.setLines(text, {start, strictIndexing:
    true})] writes exactly one existing line and fails when that line does
    not exist (the buffer belongs to the neovim client, not part of the
    sources). *)
Definition setLines (d : Document) (text : string) (start : option Z) : M unit :=
  emit (SetLines (doc_uri d) text start) ;;
  let! env := ask in
  if rpc_fails env RpcSetLines || negb (line_exists d start)
  then throw (RpcError RpcSetLines)
  else ret tt.

(** [onError(err)] logs the error; [logger.error(e.message)] does too. *)
Definition onError (e : Err) : M unit := emit (LogError e).

(** *** The methods of SnippetManager *)

(** [get document()]. *)
Definition document : M (option Document) :=
  let! m := get in
  let! env := ask in
  ret (getDocument env (uri m)).

Definition detach : M unit :=
  let! m := get in
  if negb (activted m) then ret tt else
  set_activted false ;;
  set_uri (Some "") ;;
  let! m1 := get in
  let! s := deref (snippet m1) in
  if negb (hasPlaceholder s) then ret tt else
  set_snippet None ;;
  try_catch (nvim_call RpcDisable CallDisable) onError.

Definition onLineChange (content : string) : M unit :=
  let! m := get in
  let! doc := document in
  match doc with
  | None => ret tt
  | Some d =>
      let! s := deref (snippet m) in
      let text := toString s in
      match getChangeItem text content with
      | None => ret tt
      | Some change =>
          let '(placeholder, start) :=
            findPlaceholder s change (change_offset change) in
          match placeholder with
          | None => detach
          | Some p =>
              if ph_index p =? 0 then detach else
              let newText := getNewText s change p start in
              (* replaceWith mutates the object this.snippet refers to *)
              let s' := replaceWith s p newText in
              set_snippet (Some s') ;;
              let line := toString s' in
              set_changedtick (Some (doc_changedtick d)) ;;
              if String.eqb line content then ret tt else
              let! m2 := get in
              setLines d line (startLnum m2)
          end
      end
  end.

Definition insertSnippet (d : Document) (line : Z) (newLine : string) : M unit :=
  let! m := get in
  (if activted m then detach else ret tt) ;;
  try_catch
    (set_uri (Some (doc_uri d)) ;;
     let! s := match newSnippet newLine with
               | Some s => ret s
               | None => throw ParseError
               end in
     set_snippet (Some s) ;;
     let str := toString s in
     set_changedtick (Some (doc_changedtick d)) ;;
     setLines d str (Some line))
    onError.

Definition ensureCurrentLine : M unit :=
  let! m := get in
  let! doc := document in
  match doc with
  | None => ret tt
  | Some d =>
      let! s := deref (snippet m) in
      let line := toString s in
      let currline := getline d (startLnum m) in
      if String.eqb line currline then ret tt else onLineChange currline
  end.

Definition jumpTo (marker : Placeholder) : M unit :=
  ensureCurrentLine ;;
  let! m := get in
  let! s := deref (snippet m) in
  let off := offset s marker in
  let col := off + 1 in
  let len := ph_length s marker in
  match ph_choice s marker with
  | Some values =>
      nvim_call RpcShowChoices
        (CallShowChoices (Z.succ <$> startLnum m) col len values)
  | None =>
      nvim_call RpcRangeSelect
        (CallRangeSelect (Z.succ <$> startLnum m) col len)
  end ;;
  set_currIndex (ph_index marker).

Definition checkPosition : M bool :=
  let! lnum := nvim_line in
  let! m := get in
  if negb (bool_decide (Some (lnum - 1) = startLnum m))
  then detach ;; ret false
  else ret true.

Definition jumpNext : M unit :=
  let! m := get in
  let currIndex0 := currIndex m in
  let! s := deref (snippet m) in
  let maxIndex0 := maxIndex s in
  let! valid := checkPosition in
  if negb valid then ret tt else
  let idx := if currIndex0 =? maxIndex0 then 0 else js_add currIndex0 1 in
  let placeholder := find (fun p => ph_index p =? idx) (placeholders s) in
  set_currIndex idx ;;
  match placeholder with
  | Some p => jumpTo p
  | None => ret tt
  end.

Definition jumpPrev : M unit :=
  let! m := get in
  let currIndex0 := currIndex m in
  let! s := deref (snippet m) in
  let maxIndex0 := maxIndex s in
  let! valid := checkPosition in
  if negb valid then ret tt else
  let idx := if currIndex0 =? 0 then maxIndex0 else js_sub currIndex0 1 in
  let placeholder := find (fun p => ph_index p =? idx) (placeholders s) in
  set_currIndex idx ;;
  match placeholder with
  | Some p => jumpTo p
  | None => ret tt
  end.

Definition attach : M unit :=
  let! m := get in
  let! doc := document in
  match snippet m, doc with
  | Some s, Some d =>
      let! linenr := nvim_line in
      set_startLnum (Some (linenr - 1)) ;;
      set_lineCount (Some (doc_lineCount d)) ;;
      match firstPlaceholder s with
      | Some p => jumpTo p
      | None => ret tt
      end ;;
      (* the local [snippet] is the object jumpTo may have mutated *)
      let! m1 := get in
      (if hasPlaceholder (default s (snippet m1))
       then nvim_call RpcEnable CallEnable else ret tt) ;;
      set_activted true
  | _, _ => ret tt
  end.

Definition onDocumentChange (e : DidChangeTextDocumentParams) : M unit :=
  let! m := get in
  let! doc := document in
  match doc with
  | None => ret tt
  | Some d =>
      if negb (activted m)
         || negb (bool_decide (uri m = Some (textDocument_uri e)))
      then ret tt else
      if negb (bool_decide (Some (doc_lineCount d) = lineCount m))
      then try_catch detach onError else
      let newLine := getline d (startLnum m) in
      let! s := deref (snippet m) in
      let line := toString s in
      if match changedtick m with
         | Some t => doc_changedtick d - t =? 1
         | None => false
         end
      then ret tt else
      if String.eqb newLine line then try_catch detach onError else
      try_catch (onLineChange newLine) onError
  end.

(** The handler [init] registers for closed documents. *)
Definition onDidCloseTextDocument (closed : string) : M unit :=
  let! m := get in
  if bool_decide (Some closed = uri m)
  then try_catch detach onError
  else ret tt.

End Manager.

Arguments Manager : clear implicits.
Arguments Outcome : clear implicits.
Arguments mkOutcome {Snippet A}.
Arguments result {Snippet A}.
Arguments final {Snippet A}.
Arguments trace {Snippet A}.

(** ** The document adapter's side of a write *)

(** Modelled from the spec: what the document adapter does with a write
    (src/model/document.ts is not part of the sources).  The change
    counter is bumped on every mutation of the document, the session's own
    writes included; a strict write replaces exactly one existing line. *)
Definition applyWrite (d : Document) (text : string) (start : option Z) : Document :=
  match start with
  | Some k =>
      if line_exists d start
      then {| doc_uri := doc_uri d;
              doc_lines := <[Z.to_nat k := text]> (doc_lines d);
              doc_changedtick := doc_changedtick d + 1 |}
      else d
  | None => d
  end.

(** The environment after the editor has carried out an issued action:
    only writes change it. *)
Definition deliver (env : Env) (ev : Event) : Env :=
  match ev with
  | SetLines u text start =>
      match documents env !! u with
      | Some d =>
          {| documents := <[u := applyWrite d text start]> (documents env);
             cursor_line := cursor_line env;
             rpc_fails := rpc_fails env |}
      | None => env
      end
  | _ => env
  end.

Definition deliver_all (env : Env) (t : list Event) : Env :=
  foldl deliver env t.

(** ** Vocabulary of the properties *)

Section Vocabulary.

Context {Snippet Placeholder : Type} `{!SnippetModel Snippet Placeholder}.

Local Abbreviation Manager := (Manager Snippet).

(** The invariant of the manager's state: an active session owns a
    template model.  [attach] is the only method that activates and it
    requires a model; [detach] deactivates before it discards the model. *)
Definition wf (m : Manager) : Prop :=
  activted m = true -> is_Some (snippet m).

(** The state [detach] leaves before it looks at the model. *)
Definition unbound (m : Manager) : Manager :=
  {| snippet := snippet m; activted := false; startLnum := startLnum m;
     lineCount := lineCount m; uri := Some ""; currIndex := currIndex m;
     changedtick := changedtick m |}.

Definition discarded (m : Manager) : Manager :=
  {| snippet := None; activted := false; startLnum := startLnum m;
     lineCount := lineCount m; uri := Some ""; currIndex := currIndex m;
     changedtick := changedtick m |}.

Definition disable_trace (env : Env) : list Event :=
  CallDisable ::
    (if rpc_fails env RpcDisable then [LogError (RpcError RpcDisable)] else []).

(** The shapes a run of [detach] can take. *)
Inductive detach_run (env : Env) (m : Manager) : Outcome Snippet unit -> Prop :=
  | detach_run_noop :
      activted m = false ->
      detach_run env m (mkOutcome (inr tt) m [])
  | detach_run_stuck :
      activted m = true -> snippet m = None ->
      detach_run env m (mkOutcome (inl TypeError) (unbound m) [])
  | detach_run_plain s :
      activted m = true -> snippet m = Some s -> hasPlaceholder s = false ->
      detach_run env m (mkOutcome (inr tt) (unbound m) [])
  | detach_run_disable s :
      activted m = true -> snippet m = Some s -> hasPlaceholder s = true ->
      detach_run env m (mkOutcome (inr tt) (discarded m) (disable_trace env)).

(** The state [onLineChange] leaves after it folded an edit into the
    model: the model after [replaceWith], the change counter of the
    document recorded. *)
Definition reconciled (m : Manager) (s' : Snippet) (tick : Z) : Manager :=
  {| snippet := Some s'; activted := activted m; startLnum := startLnum m;
     lineCount := lineCount m; uri := uri m; currIndex := currIndex m;
     changedtick := Some tick |}.

(** The states [insertSnippet] passes through: bound to the target
    document, then holding the parsed model and the document's counter. *)
Definition bound_to (m : Manager) (d : Document) : Manager :=
  {| snippet := snippet m; activted := activted m; startLnum := startLnum m;
     lineCount := lineCount m; uri := Some (doc_uri d);
     currIndex := currIndex m; changedtick := changedtick m |}.

Definition inserted (m : Manager) (d : Document) (s : Snippet) : Manager :=
  {| snippet := Some s; activted := activted m; startLnum := startLnum m;
     lineCount := lineCount m; uri := Some (doc_uri d);
     currIndex := currIndex m; changedtick := Some (doc_changedtick d) |}.

(** The initial write of [insertSnippet] is rejected. *)
Definition write_fails (env : Env) (d : Document) (line : Z) : bool :=
  rpc_fails env RpcSetLines || negb (line_exists d (Some line)).

Definition focused (m : Manager) (i : Z) : Manager :=
  {| snippet := snippet m; activted := activted m; startLnum := startLnum m;
     lineCount := lineCount m; uri := uri m; currIndex := i;
     changedtick := changedtick m |}.

(** [document.changedtick - this.changedtick == 1]: the document's counter
    is exactly one step past the recorded one.  An unset counter makes the
    difference NaN, which equals nothing. *)
Definition one_step_past (d : Document) (m : Manager) : bool :=
  match changedtick m with
  | Some t => doc_changedtick d - t =? 1
  | None => false
  end.

(** The index [jumpNext] and [jumpPrev] compute. *)
Definition next_index (cur maxI : Z) : Z :=
  if cur =? maxI then 0 else js_add cur 1.
Definition prev_index (cur maxI : Z) : Z :=
  if cur =? 0 then maxI else js_sub cur 1.

(** An integer whose neighbours are doubles too. *)
Definition safe_integer (n : Z) : Prop := Z.abs n < two53.

(** The jump [jumpTo] issues once the model is in step with the line. *)
Definition jump_event (m : Manager) (s : Snippet) (marker : Placeholder) : Event :=
  match ph_choice s marker with
  | Some values =>
      CallShowChoices (Z.succ <$> startLnum m) (offset s marker + 1)
        (ph_length s marker) values
  | None =>
      CallRangeSelect (Z.succ <$> startLnum m) (offset s marker + 1)
        (ph_length s marker)
  end.

Definition jump_rpc (s : Snippet) (marker : Placeholder) : Rpc :=
  match ph_choice s marker with
  | Some _ => RpcShowChoices
  | None => RpcRangeSelect
  end.

(** [jumpNext] and [jumpPrev] differ only in the index they compute. *)
Definition jump_by (target : Z -> Z -> Z) : M unit :=
  bind get (fun m =>
  bind (deref (snippet m)) (fun s =>
  bind checkPosition (fun valid =>
  if negb valid then ret tt else
  let idx := target (currIndex m) (maxIndex s) in
  bind (set_currIndex idx) (fun _ =>
  match List.find (fun p => ph_index p =? idx) (placeholders s) with
  | Some p => jumpTo p
  | None => ret tt
  end)))).

(** The cursor is on the bound line and the editor answers: what
    [checkPosition] needs to report a valid position. *)
Definition on_bound_line (env : Env) (m : Manager) : Prop :=
  rpc_fails env RpcLine = false /\ startLnum m = Some (cursor_line env - 1).

(** The cursor has left the bound line. *)
Definition off_bound_line (env : Env) (m : Manager) : Prop :=
  rpc_fails env RpcLine = false /\ startLnum m <> Some (cursor_line env - 1).

(** Successive calls of a navigation method, each in the environment of
    its time, on a session that keeps its model, with the cursor on the
    bound line and [maxI] the largest index of the model. *)
Inductive jumps (step : M unit) (maxI : Z) : nat -> Manager -> Manager -> Prop :=
  | jumps_done m : jumps step maxI O m m
  | jumps_step n env m s m' :
      snippet m = Some s -> maxIndex s = maxI -> on_bound_line env m ->
      jumps step maxI n (final (step env m)) m' ->
      jumps step maxI (S n) m m'.

(** The states the manager can be in: those the public methods and the
    registered handlers produce from the initial one, whatever the
    environment of each call and however the call ends. *)
Inductive reachable : Manager -> Prop :=
  | reach_initial : reachable initial
  | reach_attach env m :
      reachable m -> reachable (final (attach env m))
  | reach_detach env m :
      reachable m -> reachable (final (detach env m))
  | reach_insertSnippet d line newLine env m :
      reachable m -> reachable (final (insertSnippet d line newLine env m))
  | reach_jumpTo marker env m :
      reachable m -> reachable (final (jumpTo marker env m))
  | reach_jumpNext env m :
      reachable m -> reachable (final (jumpNext env m))
  | reach_jumpPrev env m :
      reachable m -> reachable (final (jumpPrev env m))
  | reach_checkPosition env m :
      reachable m -> reachable (final (checkPosition env m))
  | reach_onDocumentChange e env m :
      reachable m -> reachable (final (onDocumentChange e env m))
  | reach_onDidCloseTextDocument closed env m :
      reachable m -> reachable (final (onDidCloseTextDocument closed env m)).

(** What an active session relies on being set: the bound line, the line
    count and the uri once active, the recorded counter once there is a
    model. *)
Definition defined (m : Manager) : Prop :=
  (activted m = true ->
     is_Some (startLnum m) /\ is_Some (lineCount m) /\ is_Some (uri m)) /\
  (is_Some (snippet m) -> is_Some (changedtick m)).

(** How every method but [attach] may change the state: the bound line
    and the line count stay, the session is not activated, a set uri or
    counter stays set, and the model is the one it was, none, or one that
    came with a recorded counter. *)
Definition settles (m m' : Manager) : Prop :=
  startLnum m' = startLnum m /\
  lineCount m' = lineCount m /\
  (activted m' = true -> activted m = true) /\
  (is_Some (uri m) -> is_Some (uri m')) /\
  (is_Some (changedtick m) -> is_Some (changedtick m')) /\
  (snippet m' = snippet m \/ snippet m' = None \/ is_Some (changedtick m')).

(** The states [attach] passes through: bound to the cursor's line with
    the document's line count, then active. *)
Definition bound_at (m : Manager) (line count : Z) : Manager :=
  {| snippet := snippet m; activted := activted m; startLnum := Some line;
     lineCount := Some count; uri := uri m; currIndex := currIndex m;
     changedtick := changedtick m |}.

Definition activated (m : Manager) : Manager :=
  {| snippet := snippet m; activted := true; startLnum := startLnum m;
     lineCount := lineCount m; uri := uri m; currIndex := currIndex m;
     changedtick := changedtick m |}.

(** The end of [attach]: snippet mode is enabled when the model has a
    placeholder, then the session is active; [t] is what was issued so
    far. *)
Definition attach_finish (env : Env) (m : Manager) (s : Snippet) (t : list Event)
  : Outcome Snippet unit :=
  if hasPlaceholder s then
    if rpc_fails env RpcEnable
    then mkOutcome (inl (RpcError RpcEnable)) m (t ++ [CallEnable])
    else mkOutcome (inr tt) (activated m) (t ++ [CallEnable])
  else mkOutcome (inr tt) (activated m) t.

(** The ways a run of [onLineChange] can end. *)
Inductive reconcile_run (env : Env) (m : Manager) (content : string)
  : Outcome Snippet unit -> Prop :=
  | reconcile_unbound :
      getDocument env (uri m) = None ->
      reconcile_run env m content (mkOutcome (inr tt) m [])
  | reconcile_no_model d :
      getDocument env (uri m) = Some d -> snippet m = None ->
      reconcile_run env m content (mkOutcome (inl TypeError) m [])
  | reconcile_identical d s :
      getDocument env (uri m) = Some d -> snippet m = Some s ->
      getChangeItem (toString s) content = None ->
      reconcile_run env m content (mkOutcome (inr tt) m [])
  | reconcile_detach d s :
      getDocument env (uri m) = Some d -> snippet m = Some s ->
      reconcile_run env m content (detach env m)
  | reconcile_in_step d s' :
      getDocument env (uri m) = Some d -> toString s' = content ->
      reconcile_run env m content
        (mkOutcome (inr tt) (reconciled m s' (doc_changedtick d)) [])
  | reconcile_write d s' r :
      getDocument env (uri m) = Some d -> toString s' <> content ->
      reconcile_run env m content
        (mkOutcome r (reconciled m s' (doc_changedtick d))
           [SetLines (doc_uri d) (toString s') (startLnum m)]).

(** A call that writes at most once, and then the rendering of the model
    the session holds afterwards, on its bound line, to the document the
    session was bound to. *)
Definition tidy_writes (env : Env) (m : Manager) (o : Outcome Snippet unit) : Prop :=
  (count_writes (trace o) <= 1)%nat /\
  forall u text start, In (SetLines u text start) (trace o) ->
    exists d s', getDocument env (uri m) = Some d /\ u = doc_uri d /\
      start = startLnum (final o) /\ snippet (final o) = Some s' /\
      text = toString s'.

Definition is_enable (ev : Event) : bool :=
  match ev with CallEnable => true | _ => false end.

(** The actions reconciliation can issue: leaving snippet mode, logging,
    writing the line. *)
Definition from_reconcile (ev : Event) : bool :=
  match ev with
  | CallDisable | LogError _ | SetLines _ _ _ => true
  | _ => false
  end.

End Vocabulary.

(** ** A template model to run the manager on *)

Module Flat.

(** Modelled from the spec: the Snippet Template Model
    (src/snippet/snippet.ts and src/snippet/parser.ts are not part of the
    sources), restricted to templates without nesting: an ordered sequence
    of literal runs and placeholders; placeholders sharing an index are
    mirrors and always get the same value. *)
Inductive Node :=
  | Text (s : string)
  | Hole (index : Z) (value : string) (choice : option (list string)).

Definition Snippet := list Node.

(** A placeholder is referred to by its position in the sequence; its
    index never changes. *)
Record Placeholder := mkPlaceholder {
  pos : nat;
  index : Z
}.

Definition node_text (n : Node) : string :=
  match n with
  | Text s => s
  | Hole _ v _ => v
  end.

Definition strlen (s : string) : Z := Z.of_nat (String.length s).

Definition toString (s : Snippet) : string :=
  foldr (fun n acc => String.append (node_text n) acc) "" s.

Fixpoint placeholders_from (k : nat) (s : Snippet) : list Placeholder :=
  match s with
  | [] => []
  | Text _ :: s' => placeholders_from (S k) s'
  | Hole i _ _ :: s' => mkPlaceholder k i :: placeholders_from (S k) s'
  end.

Definition placeholders (s : Snippet) : list Placeholder := placeholders_from 0 s.

Definition hasPlaceholder (s : Snippet) : bool :=
  match placeholders s with
  | [] => false
  | _ :: _ => true
  end.

Definition maxIndex (s : Snippet) : Z :=
  foldr (fun p acc => Z.max (index p) acc) 0 (placeholders s).

(** The first placeholder in tab order: the least positive index, else the
    final-cursor placeholder. *)
Definition firstPlaceholder (s : Snippet) : option Placeholder :=
  let positive := filter (fun p => 0 <? index p) (placeholders s) in
  match positive with
  | p :: ps =>
      Some (foldl (fun best q => if index q <? index best then q else best) p ps)
  | [] => List.find (fun p => index p =? 0) (placeholders s)
  end.

Definition offset (s : Snippet) (p : Placeholder) : Z :=
  strlen (toString (take (pos p) s)).

Definition ph_length (s : Snippet) (p : Placeholder) : Z :=
  match s !! pos p with
  | Some n => strlen (node_text n)
  | None => 0
  end.

Definition ph_choice (s : Snippet) (p : Placeholder) : option (list string) :=
  match s !! pos p with
  | Some (Hole _ _ c) => c
  | _ => None
  end.

(** The first placeholder whose rendered span contains the offset, with
    the column where that placeholder begins. *)
Fixpoint find_from (k : nat) (start : Z) (s : Snippet) (off : Z)
  : option Placeholder * Z :=
  match s with
  | [] => (None, 0)
  | Text t :: s' => find_from (S k) (start + strlen t) s' off
  | Hole i v _ :: s' =>
      if (start <=? off) && (off <=? start + strlen v)
      then (Some (mkPlaceholder k i), start)
      else find_from (S k) (start + strlen v) s' off
  end.

Definition findPlaceholder (s : Snippet) (c : ChangeItem) (off : Z)
  : option Placeholder * Z := find_from 0 0 s off.

Definition substr (from len : Z) (s : string) : string :=
  String.substring (Z.to_nat from) (Z.to_nat len) s.

(** The placeholder's value with the inserted text spliced in at the
    offset relative to the placeholder's start. *)
Definition getNewText (s : Snippet) (c : ChangeItem) (p : Placeholder) (start : Z)
  : string :=
  let v := match s !! pos p with Some n => node_text n | None => "" end in
  let rel := change_offset c - start in
  String.append (substr 0 rel v)
    (String.append (change_added c)
       (substr (rel + change_removed c) (strlen v - rel - change_removed c) v)).

Definition replaceWith (s : Snippet) (p : Placeholder) (text : string) : Snippet :=
  map (fun n => match n with
                | Hole i v c => if i =? index p then Hole i text c else n
                | Text _ => n
                end) s.

(** Modelled from the spec: the template parser (src/snippet/parser.ts is
    not part of the sources), for the tab-stops [$n], [${n}] and
    [${n:default}] of the specification's scenario.  Text that does not
    form a tab-stop is literal text, an opened [${] that is never closed
    included, so every template parses; [raw] is the text read since such
    an opening. *)
Inductive Mode :=
  | InText (acc : string)
  | AfterDollar (acc : string)
  | BareIndex (n : Z)
  | InIndex (n : Z) (raw : string)
  | InDefault (n : Z) (acc : string) (raw : string).

Definition lit (acc : string) : list Node :=
  if String.eqb acc "" then [] else [Text acc].

Definition snoc (acc : string) (c : ascii) : string :=
  String.append acc (String c "").

Definition digit (c : ascii) : option Z :=
  let n := Z.of_nat (nat_of_ascii c) in
  if (48 <=? n) && (n <=? 57) then Some (n - 48) else None.

Fixpoint scan (cs : list ascii) (mode : Mode) (out : list Node) : list Node :=
  match cs with
  | [] =>
      match mode with
      | InText acc => out ++ lit acc
      | AfterDollar acc => out ++ lit (snoc acc "$")
      | BareIndex n => out ++ [Hole n "" None]
      | InIndex _ raw | InDefault _ _ raw => out ++ lit raw
      end
  | c :: cs' =>
      match mode with
      | InText acc =>
          if Ascii.eqb c "$" then scan cs' (AfterDollar acc) out
          else scan cs' (InText (snoc acc c)) out
      | AfterDollar acc =>
          match digit c with
          | Some k => scan cs' (BareIndex k) (out ++ lit acc)
          | None =>
              if Ascii.eqb c "{" then scan cs' (InIndex 0 "${") (out ++ lit acc)
              else scan cs' (InText (snoc (snoc acc "$") c)) out
          end
      | BareIndex n =>
          match digit c with
          | Some k => scan cs' (BareIndex (10 * n + k)) out
          | None =>
              if Ascii.eqb c "$"
              then scan cs' (AfterDollar "") (out ++ [Hole n "" None])
              else scan cs' (InText (String c "")) (out ++ [Hole n "" None])
          end
      | InIndex n raw =>
          match digit c with
          | Some k => scan cs' (InIndex (10 * n + k) (snoc raw c)) out
          | None =>
              if Ascii.eqb c ":" then scan cs' (InDefault n "" (snoc raw c)) out
              else if Ascii.eqb c "}"
              then scan cs' (InText "") (out ++ [Hole n "" None])
              else scan cs' (InText (snoc raw c)) out
          end
      | InDefault n acc raw =>
          if Ascii.eqb c "}"
          then scan cs' (InText "") (out ++ [Hole n acc None])
          else scan cs' (InDefault n (snoc acc c) (snoc raw c)) out
      end
  end.

(** [new Snippet(content)]; this constructor never throws. *)
Definition newSnippet (content : string) : option Snippet :=
  Some (scan (String.list_ascii_of_string content) (InText "") []).

(** Modelled from the spec: the diff utility (src/util/diff.ts is not part
    of the sources): the single contiguous replaced region between two
    strings, none when they are equal. *)
Fixpoint common_prefix (a b : list ascii) : nat :=
  match a, b with
  | x :: a', y :: b' => if Ascii.eqb x y then S (common_prefix a' b') else O
  | _, _ => O
  end.

Definition getChangeItem (old new : string) : option ChangeItem :=
  if String.eqb old new then None else
  let a := String.list_ascii_of_string old in
  let b := String.list_ascii_of_string new in
  let p := common_prefix a b in
  let a' := drop p a in
  let b' := drop p b in
  let q := common_prefix (rev a') (rev b') in
  Some {| change_offset := Z.of_nat p;
          change_removed := Z.of_nat (length a' - q);
          change_added := String.string_of_list_ascii (take (length b' - q) b') |}.

#[export] Instance model : SnippetModel Snippet Placeholder :=
  Build_SnippetModel Snippet Placeholder
    newSnippet toString hasPlaceholder firstPlaceholder maxIndex placeholders
    findPlaceholder getNewText replaceWith offset index ph_length ph_choice
    getChangeItem.

(** The scenario of the specification: the template
    [foo(${1:bar}, ${2:baz})$0] on line 3 of a five-line document. *)
Definition demo_uri : string := "file:///demo.ts".

Definition demo_doc (line3 : string) (tick : Z) : Document :=
  {| doc_uri := demo_uri;
     doc_lines := ["a"; "b"; "c"; line3; "e"];
     doc_changedtick := tick |}.

Definition demo_env (line3 : string) (tick cursor : Z) (fails : Rpc -> bool) : Env :=
  {| documents := {[ demo_uri := demo_doc line3 tick ]};
     cursor_line := cursor;
     rpc_fails := fails |}.

Definition no_failure (f : Rpc) : bool := false.

Definition demo_template : string := "foo(${1:bar}, ${2:baz})$0".

Definition demo_snippet : Snippet :=
  [Text "foo("; Hole 1 "bar" None; Text ", "; Hole 2 "baz" None; Text ")";
   Hole 0 "" None].

(** The manager after the template was inserted and attached with the
    cursor on line 4 (1-based), the change counter being [tick]. *)
Definition demo_session (tick : Z) : Manager Snippet :=
  {| snippet := Some demo_snippet; activted := true; startLnum := Some 3;
     lineCount := Some 5; uri := Some demo_uri; currIndex := 1;
     changedtick := Some tick |}.

(** The same session with the focus on a given tab-stop. *)
Definition demo_focus (i : Z) : Manager Snippet := focused (demo_session 7) i.

(** The bound line in step with the model, the cursor on the bound line. *)
Definition quiet_env : Env := demo_env "foo(bar, baz)" 8 4 no_failure.

(** A template with a mirror: both placeholders carry tab-stop 1. *)
Definition mirror_snippet : Snippet :=
  [Hole 1 "ab" None; Text "-"; Hole 1 "ab" None; Hole 0 "" None].

Definition mirror_session (tick : Z) : Manager Snippet :=
  {| snippet := Some mirror_snippet; activted := true; startLnum := Some 3;
     lineCount := Some 5; uri := Some demo_uri; currIndex := 1;
     changedtick := Some tick |}.

(** A template with a tab-stop that is never closed. *)
Definition unterminated_template : string := "foo(${1:bar".

(** A template whose only tab-stop is numbered 2^53 + 2, and a session on
    it with the focus on a given index. *)
Definition far_index : Z := 9007199254740994.

Definition far_snippet : Snippet := [Hole far_index "x" None].

Definition far_session (i : Z) : Manager Snippet :=
  {| snippet := Some far_snippet; activted := true; startLnum := Some 3;
     lineCount := Some 5; uri := Some demo_uri; currIndex := i;
     changedtick := Some 7 |}.

Definition far_env : Env := demo_env "x" 8 4 no_failure.

Definition disable_fails (f : Rpc) : bool :=
  match f with RpcDisable => true | _ => false end.

Definition write_rejected (f : Rpc) : bool :=
  match f with RpcSetLines => true | _ => false end.

Definition demo_event : DidChangeTextDocumentParams :=
  {| textDocument_uri := demo_uri |}.

(** The manager after the template was inserted and before [attach]. *)
Definition demo_inserted : Manager Snippet :=
  {| snippet := Some demo_snippet; activted := false; startLnum := None;
     lineCount := None; uri := Some demo_uri; currIndex := -1;
     changedtick := Some 7 |}.

(** The bound line with a character typed before the template's text. *)
Definition edited_outside_env : Env :=
  demo_env "xfoo(bar, baz)" 9 4 no_failure.


End Flat.

(** ** Properties of the manager *)

Section Properties.

Context {Snippet Placeholder : Type} `{!SnippetModel Snippet Placeholder}.

Local Abbreviation Manager := (Manager Snippet).

(** Case analysis on the outcome of a method called by another one. *)
Ltac case_call :=
  match goal with
  | |- context [detach ?env ?x] =>
      destruct (detach env x) as [[?|[]] ? ?]
  | |- context [onLineChange ?c ?env ?x] =>
      destruct (onLineChange c env x) as [[?|[]] ? ?]
  | |- context [ensureCurrentLine ?env ?x] =>
      destruct (ensureCurrentLine env x) as [[?|[]] ? ?]
  | |- context [jumpTo ?p ?env ?x] =>
      destruct (jumpTo p env x) as [[?|[]] ? ?]
  | |- context [checkPosition ?env ?x] =>
      destruct (checkPosition env x) as [[?|[]] ? ?]
  end.

Ltac unfold_monad :=
  repeat progress
    (cbv [bind ret throw get ask modify emit try_catch deref
          set_snippet set_activted set_startLnum set_lineCount set_uri
          set_currIndex set_changedtick nvim_call nvim_line setLines
          onError document] in *;
     simpl in *).

Lemma wf_of_model (m : Manager) s : snippet m = Some s -> wf m.
Proof. intros Hs _. rewrite Hs. eauto. Qed.

(** *** detach *)

Lemma detach_inactive env (m : Manager) :
  activted m = false -> detach env m = mkOutcome (inr tt) m [].
Proof.
  intros Hact. destruct m; simpl in *; subst.
  unfold detach. unfold_monad. reflexivity.
Qed.

Lemma detach_no_model env (m : Manager) :
  activted m = true -> snippet m = None ->
  detach env m = mkOutcome (inl TypeError) (unbound m) [].
Proof.
  intros Hact Hs. destruct m; simpl in *; subst.
  unfold detach, unbound. unfold_monad. reflexivity.
Qed.

Lemma detach_plain env (m : Manager) s :
  activted m = true -> snippet m = Some s -> hasPlaceholder s = false ->
  detach env m = mkOutcome (inr tt) (unbound m) [].
Proof.
  intros Hact Hs Hp. destruct m; simpl in *; subst.
  unfold detach, unbound. unfold_monad. rewrite Hp. reflexivity.
Qed.

Lemma detach_placeholders env (m : Manager) s :
  activted m = true -> snippet m = Some s -> hasPlaceholder s = true ->
  detach env m = mkOutcome (inr tt) (discarded m) (disable_trace env).
Proof.
  intros Hact Hs Hp. destruct m; simpl in *; subst.
  unfold detach, discarded, disable_trace. unfold_monad. rewrite Hp.
  unfold_monad. destruct (rpc_fails env RpcDisable); reflexivity.
Qed.

Lemma detach_cases env (m : Manager) : detach_run env m (detach env m).
Proof.
  destruct (activted m) eqn:Hact.
  - destruct (snippet m) as [s|] eqn:Hs.
    + destruct (hasPlaceholder s) eqn:Hp.
      * rewrite (detach_placeholders env m s) by assumption.
        eapply detach_run_disable; eassumption.
      * rewrite (detach_plain env m s) by assumption.
        eapply detach_run_plain; eassumption.
    + rewrite detach_no_model by assumption. now apply detach_run_stuck.
  - rewrite detach_inactive by assumption. now apply detach_run_noop.
Qed.

Lemma no_write_disable env : filter is_write (disable_trace env) = [].
Proof. unfold disable_trace. destruct (rpc_fails env RpcDisable); reflexivity. Qed.

Lemma no_jump_disable env : filter is_jump (disable_trace env) = [].
Proof. unfold disable_trace. destruct (rpc_fails env RpcDisable); reflexivity. Qed.

Lemma detach_final_inactive env (m : Manager) :
  activted (final (detach env m)) = false.
Proof. destruct (detach_cases env m); simpl; auto. Qed.

Lemma detach_no_write env (m : Manager) :
  filter is_write (trace (detach env m)) = [].
Proof. destruct (detach_cases env m); simpl; auto using no_write_disable. Qed.

Lemma detach_no_jump env (m : Manager) :
  filter is_jump (trace (detach env m)) = [].
Proof. destruct (detach_cases env m); simpl; auto using no_jump_disable. Qed.

Lemma detach_ok env (m : Manager) :
  wf m -> result (detach env m) = inr tt.
Proof.
  intros Hwf. destruct (detach_cases env m) as [| Hact Hs | |]; simpl; auto.
  destruct (Hwf Hact) as [s Hs']. congruence.
Qed.

Lemma detach_keeps_position env (m : Manager) :
  let m' := final (detach env m) in
  currIndex m' = currIndex m /\ startLnum m' = startLnum m /\
  lineCount m' = lineCount m /\ changedtick m' = changedtick m.
Proof. destruct (detach_cases env m); simpl; auto. Qed.

Lemma detach_model env (m : Manager) :
  snippet (final (detach env m)) = snippet m \/
  snippet (final (detach env m)) = None.
Proof. destruct (detach_cases env m); simpl; auto. Qed.

Lemma detach_wf env (m : Manager) : wf (final (detach env m)).
Proof.
  intros Hact. rewrite detach_final_inactive in Hact. discriminate.
Qed.

(** C8. [detach] never fails for its caller: on an inactive session it
    changes nothing and issues no call; on an active session it ends
    inactive with the bound uri cleared; when the template has no
    placeholder it stops there, keeping the model and calling nothing;
    otherwise it discards the model and asks the editor to leave snippet
    mode, a rejection of that call being logged and not rethrown. *)
Theorem detach_always_succeeds env (m : Manager) :
  wf m ->
  result (detach env m) = inr tt /\
  (activted m = false -> detach env m = mkOutcome (inr tt) m []) /\
  (activted m = true ->
     activted (final (detach env m)) = false /\
     uri (final (detach env m)) = Some "" /\
     forall s, snippet m = Some s ->
       (hasPlaceholder s = false ->
          snippet (final (detach env m)) = Some s /\
          trace (detach env m) = []) /\
       (hasPlaceholder s = true ->
          snippet (final (detach env m)) = None /\
          trace (detach env m) =
            CallDisable ::
              (if rpc_fails env RpcDisable
               then [LogError (RpcError RpcDisable)] else []))).
Proof.
  intros Hwf. split; [now apply detach_ok|]. split.
  - apply detach_inactive.
  - intros Hact. destruct (Hwf Hact) as [s0 Hs0]. split; [apply detach_final_inactive|].
    destruct (hasPlaceholder s0) eqn:Hp.
    + rewrite (detach_placeholders env m s0) by assumption. simpl. split; [reflexivity|].
      intros s Hs. assert (s = s0) by congruence. subst s. split; [congruence|]. auto.
    + rewrite (detach_plain env m s0) by assumption. simpl. split; [reflexivity|].
      intros s Hs. assert (s = s0) by congruence. subst s. split; [auto|congruence].
Qed.

(** *** onLineChange *)

#[local] Opaque detach.

Lemma onLineChange_unbound content env (m : Manager) :
  getDocument env (uri m) = None ->
  onLineChange content env m = mkOutcome (inr tt) m [].
Proof.
  intros Hd. destruct m; simpl in *.
  unfold onLineChange. unfold_monad. rewrite Hd. reflexivity.
Qed.

Lemma onLineChange_no_model content env (m : Manager) d :
  getDocument env (uri m) = Some d -> snippet m = None ->
  onLineChange content env m = mkOutcome (inl TypeError) m [].
Proof.
  intros Hd Hs. destruct m; simpl in *; subst.
  unfold onLineChange. unfold_monad. rewrite Hd. reflexivity.
Qed.

Lemma onLineChange_identical content env (m : Manager) d s :
  getDocument env (uri m) = Some d -> snippet m = Some s ->
  getChangeItem (toString s) content = None ->
  onLineChange content env m = mkOutcome (inr tt) m [].
Proof.
  intros Hd Hs Hc. destruct m; simpl in *; subst.
  unfold onLineChange. unfold_monad. rewrite Hd. unfold_monad.
  rewrite Hc. reflexivity.
Qed.

Lemma onLineChange_rejects content env (m : Manager) d s change ph start :
  getDocument env (uri m) = Some d -> snippet m = Some s ->
  getChangeItem (toString s) content = Some change ->
  findPlaceholder s change (change_offset change) = (ph, start) ->
  (ph = None \/ exists p, ph = Some p /\ ph_index p = 0) ->
  onLineChange content env m = detach env m.
Proof.
  intros Hd Hs Hc Hf Hph.
  destruct m; simpl in *; subst.
  unfold onLineChange. unfold_monad. rewrite Hd. unfold_monad.
  rewrite Hc, Hf.
  destruct Hph as [-> | (p & -> & Hp)]; [|rewrite Hp, Z.eqb_refl];
    case_call; reflexivity.
Qed.

Lemma onLineChange_updates content env (m : Manager) d s change p start :
  getDocument env (uri m) = Some d -> snippet m = Some s ->
  getChangeItem (toString s) content = Some change ->
  findPlaceholder s change (change_offset change) = (Some p, start) ->
  ph_index p <> 0 ->
  let s' := replaceWith s p (getNewText s change p start) in
  let m' := reconciled m s' (doc_changedtick d) in
  onLineChange content env m =
    if String.eqb (toString s') content
    then mkOutcome (inr tt) m' []
    else setLines d (toString s') (startLnum m) env m'.
Proof.
  intros Hd Hs Hc Hf Hp s' m'. subst s' m'.
  apply Z.eqb_neq in Hp.
  destruct m; simpl in *; subst.
  unfold onLineChange, reconciled. unfold_monad. rewrite Hd. unfold_monad.
  rewrite Hc, Hf, Hp. unfold_monad.
  destruct (String.eqb _ content); [reflexivity|].
  unfold_monad.
  destruct (rpc_fails env RpcSetLines || negb (line_exists d startLnum0));
    reflexivity.
Qed.

Lemma setLines_run d text start env (m : Manager) :
  setLines d text start env m =
    mkOutcome
      (if rpc_fails env RpcSetLines || negb (line_exists d start)
       then inl (RpcError RpcSetLines) else inr tt)
      m [SetLines (doc_uri d) text start].
Proof.
  unfold_monad.
  destruct (rpc_fails env RpcSetLines || negb (line_exists d start)); reflexivity.
Qed.

(** C2. When the diff between the rendered model and the new content is a
    change whose start offset lies in no placeholder, or in the
    final-cursor placeholder (index 0), [onLineChange] is exactly
    [detach]: the session ends inactive, the model is the one it was or is
    discarded (no placeholder value is updated), the change counter is
    untouched and no write is issued. *)
Theorem onLineChange_outside_detaches content env (m : Manager) d s change ph start :
  getDocument env (uri m) = Some d ->
  snippet m = Some s ->
  getChangeItem (toString s) content = Some change ->
  findPlaceholder s change (change_offset change) = (ph, start) ->
  (ph = None \/ exists p, ph = Some p /\ ph_index p = 0) ->
  let o := onLineChange content env m in
  o = detach env m /\
  result o = inr tt /\
  activted (final o) = false /\
  (snippet (final o) = Some s \/ snippet (final o) = None) /\
  changedtick (final o) = changedtick m /\
  filter is_write (trace o) = [].
Proof.
  intros Hd Hs Hc Hf Hph o. subst o.
  rewrite (onLineChange_rejects content env m d s change ph start) by assumption.
  split; [reflexivity|]. split.
  - apply detach_ok. intros _. rewrite Hs. eauto.
  - split; [apply detach_final_inactive|]. split.
    + rewrite <- Hs. apply detach_model.
    + split; [apply detach_keeps_position | apply detach_no_write].
Qed.

(** C3. When the change's start offset lies in a placeholder of non-zero
    index, [onLineChange] replaces that placeholder's value by the spliced
    text, re-renders, records the document's change counter, and issues a
    write of the re-rendered line on the bound line exactly when that line
    differs from the new content.  The write is issued from the state in
    which the counter is already recorded, so the counter is recorded
    whether or not the write is then rejected. *)
Theorem onLineChange_reconciles content env (m : Manager) d s change p start :
  getDocument env (uri m) = Some d ->
  snippet m = Some s ->
  getChangeItem (toString s) content = Some change ->
  findPlaceholder s change (change_offset change) = (Some p, start) ->
  ph_index p <> 0 ->
  let s' := replaceWith s p (getNewText s change p start) in
  let o := onLineChange content env m in
  final o = reconciled m s' (doc_changedtick d) /\
  (toString s' = content -> result o = inr tt /\ trace o = []) /\
  (toString s' <> content ->
     o = setLines d (toString s') (startLnum m) env
           (reconciled m s' (doc_changedtick d)) /\
     trace o = [SetLines (doc_uri d) (toString s') (startLnum m)]) /\
  (count_writes (trace o) = 1%nat <-> toString s' <> content) /\
  (count_writes (trace o) = 0%nat <-> toString s' = content).
Proof.
  intros Hd Hs Hc Hf Hp s' o. subst o.
  rewrite (onLineChange_updates content env m d s change p start) by assumption.
  fold s'. rewrite setLines_run.
  destruct (String.eqb (toString s') content) eqn:He.
  - apply String.eqb_eq in He. simpl.
    repeat split; try tauto; try discriminate; congruence.
  - apply String.eqb_neq in He. simpl.
    repeat split; try tauto; try discriminate; congruence.
Qed.


(** *** onDocumentChange *)

#[local] Opaque onLineChange.

Lemma catch_log_run (c : M unit) env (m : Manager) :
  try_catch c onError env m =
    match result (c env m) with
    | inl e => mkOutcome (inr tt) (final (c env m)) (trace (c env m) ++ [LogError e])
    | inr _ => c env m
    end.
Proof.
  unfold try_catch, onError, emit. destruct (c env m) as [[e|[]] m1 t1]; reflexivity.
Qed.

Lemma catch_log_ok (c : M unit) env (m : Manager) :
  result (c env m) = inr tt -> try_catch c onError env m = c env m.
Proof. intros Hr. rewrite catch_log_run, Hr. reflexivity. Qed.

Lemma catch_log_final (c : M unit) env (m : Manager) :
  final (try_catch c onError env m) = final (c env m).
Proof. rewrite catch_log_run. destruct (result (c env m)); reflexivity. Qed.

Lemma catch_log_result (c : M unit) env (m : Manager) :
  result (try_catch c onError env m) = inr tt.
Proof.
  rewrite catch_log_run. destruct (result (c env m)) as [|[]] eqn:Hr; auto.
Qed.

Lemma onDocumentChange_ignores e env (m : Manager) :
  activted m = false \/ getDocument env (uri m) = None \/
    uri m <> Some (textDocument_uri e) ->
  onDocumentChange e env m = mkOutcome (inr tt) m [].
Proof.
  intros Hc. destruct m; simpl in *.
  unfold onDocumentChange. unfold_monad.
  destruct (getDocument env uri0) as [d|]; [|reflexivity].
  destruct Hc as [-> | [Hc | Hc]]; [reflexivity | discriminate |].
  rewrite (bool_decide_eq_false_2 _ Hc). simpl.
  rewrite orb_true_r. reflexivity.
Qed.

Lemma onDocumentChange_line_count e env (m : Manager) d :
  activted m = true -> getDocument env (uri m) = Some d ->
  uri m = Some (textDocument_uri e) ->
  lineCount m <> Some (doc_lineCount d) ->
  onDocumentChange e env m = try_catch detach onError env m.
Proof.
  intros Hact Hd Hu Hl. destruct m; simpl in *; subst.
  unfold onDocumentChange. unfold_monad. rewrite Hd.
  rewrite (bool_decide_eq_true_2 _ eq_refl).
  rewrite bool_decide_eq_false_2 by congruence. simpl.
  case_call; reflexivity.
Qed.

Lemma onDocumentChange_own_write e env (m : Manager) d s :
  activted m = true -> getDocument env (uri m) = Some d ->
  uri m = Some (textDocument_uri e) ->
  lineCount m = Some (doc_lineCount d) ->
  snippet m = Some s ->
  one_step_past d m = true ->
  onDocumentChange e env m = mkOutcome (inr tt) m [].
Proof.
  intros Hact Hd Hu Hl Hs Ht. unfold one_step_past in Ht.
  destruct m; simpl in *; subst.
  unfold onDocumentChange. unfold_monad. rewrite Hd.
  rewrite !(bool_decide_eq_true_2 _ eq_refl). simpl.
  rewrite Ht. reflexivity.
Qed.

Lemma onDocumentChange_stale e env (m : Manager) d s :
  activted m = true -> getDocument env (uri m) = Some d ->
  uri m = Some (textDocument_uri e) ->
  lineCount m = Some (doc_lineCount d) ->
  snippet m = Some s ->
  one_step_past d m = false ->
  onDocumentChange e env m =
    if String.eqb (getline d (startLnum m)) (toString s)
    then try_catch detach onError env m
    else try_catch (onLineChange (getline d (startLnum m))) onError env m.
Proof.
  intros Hact Hd Hu Hl Hs Ht. unfold one_step_past in Ht.
  destruct m; simpl in *; subst.
  unfold onDocumentChange. unfold_monad. rewrite Hd.
  rewrite !(bool_decide_eq_true_2 _ eq_refl). simpl.
  rewrite Ht.
  destruct (String.eqb _ _).
  - case_call; reflexivity.
  - case_call; reflexivity.
Qed.

(** C5. A change notification is ignored when the session is inactive,
    when its uri resolves to no document, or when the event is for another
    document.  On an active, bound session and an event for its document:
    a line count other than the one recorded at attach time detaches the
    session; with the line count unchanged and the counter not exactly one
    step past the recorded one, a bound line identical to the rendered
    model detaches it too. *)
Theorem onDocumentChange_guards e env (m : Manager) :
  wf m ->
  (activted m = false \/ getDocument env (uri m) = None \/
     uri m <> Some (textDocument_uri e) ->
   onDocumentChange e env m = mkOutcome (inr tt) m []) /\
  (forall d,
     activted m = true -> getDocument env (uri m) = Some d ->
     uri m = Some (textDocument_uri e) ->
     (lineCount m <> Some (doc_lineCount d) ->
        onDocumentChange e env m = detach env m /\
        result (detach env m) = inr tt /\
        activted (final (detach env m)) = false) /\
     (forall s,
        lineCount m = Some (doc_lineCount d) ->
        snippet m = Some s ->
        one_step_past d m = false ->
        getline d (startLnum m) = toString s ->
        onDocumentChange e env m = detach env m /\
        result (detach env m) = inr tt /\
        activted (final (detach env m)) = false)).
Proof.
  intros Hwf. split; [apply onDocumentChange_ignores|].
  intros d Hact Hd Hu. split.
  - intros Hl. rewrite (onDocumentChange_line_count e env m d) by assumption.
    rewrite catch_log_ok by now apply detach_ok.
    auto using detach_ok, detach_final_inactive.
  - intros s Hl Hs Ht Hline.
    rewrite (onDocumentChange_stale e env m d s) by assumption.
    rewrite Hline, String.eqb_refl.
    rewrite catch_log_ok by now apply detach_ok.
    auto using detach_ok, detach_final_inactive.
Qed.


(** *** A write and the notification it causes *)

Lemma count_writes_nil_of_filter (t : list Event) :
  filter is_write t = [] -> count_writes t = 0%nat.
Proof. unfold count_writes. intros ->. reflexivity. Qed.

(** A run of [onLineChange] that issued a write went through the
    reconciliation branch. *)
Lemma onLineChange_wrote content env (m : Manager) d s :
  getDocument env (uri m) = Some d -> snippet m = Some s ->
  count_writes (trace (onLineChange content env m)) = 1%nat ->
  exists s',
    final (onLineChange content env m) = reconciled m s' (doc_changedtick d) /\
    trace (onLineChange content env m) =
      [SetLines (doc_uri d) (toString s') (startLnum m)] /\
    (result (onLineChange content env m) = inr tt ->
     line_exists d (startLnum m) = true).
Proof.
  intros Hd Hs Hw.
  destruct (getChangeItem (toString s) content) as [change|] eqn:Hc.
  2:{ rewrite (onLineChange_identical content env m d s) in Hw by assumption.
      discriminate. }
  destruct (findPlaceholder s change (change_offset change)) as [ph start] eqn:Hf.
  assert (Hrej : (ph = None \/ exists p, ph = Some p /\ ph_index p = 0) -> False).
  { intros Hph.
    rewrite (onLineChange_rejects content env m d s change ph start) in Hw
      by assumption.
    rewrite count_writes_nil_of_filter in Hw by apply detach_no_write.
    discriminate. }
  destruct ph as [p|]; [|exfalso; auto].
  destruct (Z.eq_dec (ph_index p) 0) as [Hp|Hp]; [exfalso; eauto|].
  pose proof (onLineChange_updates content env m d s change p start Hd Hs Hc Hf Hp)
    as Heq.
  simpl in Heq. rewrite setLines_run in Heq.
  destruct (String.eqb _ content).
  - rewrite Heq in Hw. discriminate.
  - rewrite Heq. simpl. eexists. split; [reflexivity|]. split; [reflexivity|].
    destruct (rpc_fails env RpcSetLines); simpl; [discriminate|].
    destruct (line_exists d (startLnum m)); simpl; [reflexivity|discriminate].
Qed.

Lemma applyWrite_line_count d text start :
  doc_lineCount (applyWrite d text start) = doc_lineCount d.
Proof.
  unfold applyWrite, doc_lineCount. destruct start as [k|]; [|reflexivity].
  destruct (line_exists d (Some k)); [|reflexivity].
  simpl. now rewrite length_insert.
Qed.

Lemma applyWrite_tick d text start :
  line_exists d start = true ->
  doc_changedtick (applyWrite d text start) = doc_changedtick d + 1.
Proof.
  unfold applyWrite. destruct start as [k|]; [|discriminate].
  intros ->. reflexivity.
Qed.

Lemma deliver_write env u d text start :
  documents env !! u = Some d ->
  documents (deliver_all env [SetLines u text start]) !! u =
    Some (applyWrite d text start).
Proof.
  intros Hd. unfold deliver_all. simpl. rewrite Hd. simpl.
  apply lookup_insert_eq.
Qed.

(** C1. On an active, bound session, an event for its document and an
    unchanged line count, a document counter exactly one step past the
    recorded one makes [onDocumentChange] return at once: the state is
    unchanged and nothing is issued.  Hence the round trip of a write: when
    [onLineChange] has written the corrected line and the document adapter
    has carried the write out and bumped its counter, the notification of
    that write is ignored, and the round trip issues one write in total. *)
Theorem own_write_is_ignored content env (m : Manager) u d e :
  wf m ->
  activted m = true ->
  uri m = Some u ->
  documents env !! u = Some d ->
  doc_uri d = u ->
  lineCount m = Some (doc_lineCount d) ->
  textDocument_uri e = u ->
  let o := onLineChange content env m in
  let env' := deliver_all env (trace o) in
  result o = inr tt ->
  count_writes (trace o) = 1%nat ->
  (forall env1 e1 (m1 : Manager) d1 t1,
     wf m1 -> activted m1 = true ->
     getDocument env1 (uri m1) = Some d1 ->
     uri m1 = Some (textDocument_uri e1) ->
     lineCount m1 = Some (doc_lineCount d1) ->
     changedtick m1 = Some t1 ->
     doc_changedtick d1 - t1 = 1 ->
     onDocumentChange e1 env1 m1 = mkOutcome (inr tt) m1 []) /\
  onDocumentChange e env' (final o) = mkOutcome (inr tt) (final o) [] /\
  count_writes (trace o ++ trace (onDocumentChange e env' (final o))) = 1%nat.
Proof.
  intros Hwf Hact Hu Hd Hdu Hl He o env' Hres Hw.
  assert (Hgen : forall env1 e1 (m1 : Manager) d1 t1,
     wf m1 -> activted m1 = true ->
     getDocument env1 (uri m1) = Some d1 ->
     uri m1 = Some (textDocument_uri e1) ->
     lineCount m1 = Some (doc_lineCount d1) ->
     changedtick m1 = Some t1 ->
     doc_changedtick d1 - t1 = 1 ->
     onDocumentChange e1 env1 m1 = mkOutcome (inr tt) m1 []).
  { intros env1 e1 m1 d1 t1 Hwf1 Hact1 Hd1 Hu1 Hl1 Ht1 Hdelta.
    destruct (Hwf1 Hact1) as [s1 Hs1].
    apply (onDocumentChange_own_write e1 env1 m1 d1 s1); auto.
    unfold one_step_past. rewrite Ht1. now apply Z.eqb_eq. }
  split; [exact Hgen|].
  destruct (Hwf Hact) as [s Hs].
  assert (Hdoc : getDocument env (uri m) = Some d) by (rewrite Hu; exact Hd).
  destruct (onLineChange_wrote content env m d s Hdoc Hs Hw)
    as (s' & Hfin & Htr & Hex).
  specialize (Hex Hres).
  assert (Hign : onDocumentChange e env' (final o) = mkOutcome (inr tt) (final o) []).
  { apply (Hgen env' e (final o) (applyWrite d (toString s') (startLnum m))
             (doc_changedtick d)).
    - intros _. subst o. rewrite Hfin. simpl. eauto.
    - subst o. rewrite Hfin. exact Hact.
    - subst o env'. rewrite Hfin, Htr. simpl uri. rewrite Hu, Hdu.
      apply deliver_write. exact Hd.
    - subst o. rewrite Hfin. simpl. congruence.
    - subst o. rewrite Hfin. simpl. rewrite applyWrite_line_count. exact Hl.
    - subst o. rewrite Hfin. reflexivity.
    - rewrite applyWrite_tick by assumption. lia. }
  split; [exact Hign|].
  rewrite Hign. simpl. rewrite app_nil_r. exact Hw.
Qed.

(** C9. When [onLineChange] folds an edit into a placeholder of non-zero
    index and the re-rendered line equals the new content, nothing is
    written and yet the document's change counter is recorded; the next
    notification that finds the counter exactly one step past that value
    is then ignored by [onDocumentChange], whatever the bound line holds,
    although no write of the session caused it. *)
Theorem counter_recorded_without_write
    content env (m : Manager) d s change p start env' e d' :
  wf m ->
  activted m = true ->
  getDocument env (uri m) = Some d ->
  snippet m = Some s ->
  getChangeItem (toString s) content = Some change ->
  findPlaceholder s change (change_offset change) = (Some p, start) ->
  ph_index p <> 0 ->
  toString (replaceWith s p (getNewText s change p start)) = content ->
  getDocument env' (uri m) = Some d' ->
  uri m = Some (textDocument_uri e) ->
  lineCount m = Some (doc_lineCount d') ->
  doc_changedtick d' = doc_changedtick d + 1 ->
  let o := onLineChange content env m in
  result o = inr tt /\
  trace o = [] /\
  changedtick (final o) = Some (doc_changedtick d) /\
  onDocumentChange e env' (final o) = mkOutcome (inr tt) (final o) [].
Proof.
  intros Hwf Hact Hd Hs Hc Hf Hp Hsame Hd' Hu Hl Htick o. subst o.
  rewrite (onLineChange_updates content env m d s change p start) by assumption.
  rewrite Hsame, String.eqb_refl. simpl.
  repeat split.
  eapply onDocumentChange_own_write; simpl; eauto.
  unfold one_step_past. simpl. apply Z.eqb_eq. lia.
Qed.


(** *** insertSnippet *)

Lemma insertSnippet_inactive_parse_error d line newLine env (m : Manager) :
  activted m = false -> newSnippet newLine = None ->
  insertSnippet d line newLine env m =
    mkOutcome (inr tt) (bound_to m d) [LogError ParseError].
Proof.
  intros Hact Hp. destruct m; simpl in *; subst.
  unfold insertSnippet, bound_to. unfold_monad. rewrite Hp. reflexivity.
Qed.

Lemma insertSnippet_inactive_parsed d line newLine env (m : Manager) s :
  activted m = false -> newSnippet newLine = Some s ->
  insertSnippet d line newLine env m =
    mkOutcome (inr tt) (inserted m d s)
      (SetLines (doc_uri d) (toString s) (Some line) ::
         if write_fails env d line then [LogError (RpcError RpcSetLines)] else []).
Proof.
  intros Hact Hp. destruct m; simpl in *; subst.
  unfold insertSnippet, inserted, write_fails. unfold_monad. rewrite Hp.
  unfold_monad. unfold line_exists.
  destruct (rpc_fails env RpcSetLines || _); reflexivity.
Qed.

(** [insertSnippet] runs [detach] first and then proceeds from the state
    [detach] left. *)
Lemma insertSnippet_detaches_first d line newLine env (m : Manager) :
  result (detach env m) = inr tt ->
  let o1 := detach env m in
  let o2 := insertSnippet d line newLine env (final o1) in
  insertSnippet d line newLine env m =
    mkOutcome (result o2) (final o2) (trace o1 ++ trace o2).
Proof.
  intros Hok o1 o2. subst o1 o2.
  pose proof (detach_final_inactive env m) as Hin.
  destruct (activted m) eqn:Hact.
  - destruct m as [sn act sl lc u ci ct]; simpl in Hact; subst act.
    unfold insertSnippet at 1. unfold_monad.
    case_call; simpl in *; [discriminate|].
    match goal with
    | |- context [insertSnippet _ _ _ _ ?x] => destruct x; simpl in Hin; subst
    end.
    unfold insertSnippet. unfold_monad.
    destruct (newSnippet newLine); unfold_monad; [|reflexivity].
    destruct (rpc_fails env RpcSetLines || _); reflexivity.
  - rewrite detach_inactive by assumption. simpl.
    destruct (insertSnippet d line newLine env m); reflexivity.
Qed.

Lemma insertSnippet_inactive_cases d line newLine env (m : Manager) :
  activted m = false ->
  let o := insertSnippet d line newLine env m in
  result o = inr tt /\ activted (final o) = false /\
  uri (final o) = Some (doc_uri d).
Proof.
  intros Hact o. subst o.
  destruct (newSnippet newLine) as [s|] eqn:Hp.
  - rewrite (insertSnippet_inactive_parsed d line newLine env m s) by assumption.
    simpl. auto.
  - rewrite insertSnippet_inactive_parse_error by assumption. simpl. auto.
Qed.

(** C6. [insertSnippet] first detaches the running session: its actions
    are those of [detach] followed by those of the insertion carried out
    on the detached state.  It never raises: when the template does not
    parse, or the initial strict write is rejected, the failure is logged
    and the call returns normally.  The session is inactive after the
    call. *)
Theorem insertSnippet_never_raises d line newLine env (m : Manager) :
  wf m ->
  let o := insertSnippet d line newLine env m in
  let o1 := detach env m in
  let o2 := insertSnippet d line newLine env (final o1) in
  o = mkOutcome (result o2) (final o2) (trace o1 ++ trace o2) /\
  result o = inr tt /\
  activted (final o) = false /\
  (newSnippet newLine = None ->
     trace o2 = [LogError ParseError]) /\
  (forall s, newSnippet newLine = Some s -> write_fails env d line = true ->
     trace o2 = [SetLines (doc_uri d) (toString s) (Some line);
                 LogError (RpcError RpcSetLines)]).
Proof.
  intros Hwf o o1 o2. subst o o1 o2.
  pose proof (detach_ok env m Hwf) as Hok.
  pose proof (detach_final_inactive env m) as Hin.
  rewrite (insertSnippet_detaches_first d line newLine env m Hok).
  destruct (insertSnippet_inactive_cases d line newLine env _ Hin) as (Hr & Ha & _).
  simpl. repeat split; auto.
  - intros Hp. now rewrite insertSnippet_inactive_parse_error.
  - intros s Hp Hf.
    rewrite (insertSnippet_inactive_parsed d line newLine env _ s) by assumption.
    simpl. now rewrite Hf.
Qed.

(** X19. [insertSnippet] binds the session to the target document
    before anything can fail: after every call, also one whose constructor
    throws or whose write is rejected, the bound uri is the target's and,
    the target being the workspace's document for its uri, the document
    getter of the (inactive) session resolves to it.  When the constructor
    throws, the model reference is the one the initial [detach] left: the
    previous model if the session was inactive or its template has no
    placeholder, none if an active session with placeholders was
    detached. *)
Theorem insertSnippet_binds_before_failing d line newLine env (m : Manager) :
  wf m ->
  documents env !! doc_uri d = Some d ->
  let o := insertSnippet d line newLine env m in
  uri (final o) = Some (doc_uri d) /\
  activted (final o) = false /\
  getDocument env (uri (final o)) = Some d /\
  (newSnippet newLine = None ->
     snippet (final o) = snippet (final (detach env m)) /\
     (activted m = false -> snippet (final o) = snippet m) /\
     (forall s, snippet m = Some s -> hasPlaceholder s = false ->
        snippet (final o) = Some s) /\
     (forall s, activted m = true -> snippet m = Some s ->
        hasPlaceholder s = true -> snippet (final o) = None)).
Proof.
  intros Hwf Hd o. subst o.
  pose proof (detach_ok env m Hwf) as Hok.
  pose proof (detach_final_inactive env m) as Hin.
  rewrite (insertSnippet_detaches_first d line newLine env m Hok).
  destruct (insertSnippet_inactive_cases d line newLine env _ Hin) as (_ & Ha & Hu).
  simpl. rewrite Hu. simpl. repeat split; auto.
  - now rewrite insertSnippet_inactive_parse_error.
  - intros Hact. rewrite insertSnippet_inactive_parse_error by assumption.
    simpl. now rewrite detach_inactive.
  - intros s Hs Hp. rewrite insertSnippet_inactive_parse_error by assumption.
    simpl. destruct (activted m) eqn:Hact.
    + now rewrite (detach_plain env m s).
    + now rewrite detach_inactive.
  - intros s Hact Hs Hp. rewrite insertSnippet_inactive_parse_error by assumption.
    simpl. now rewrite (detach_placeholders env m s).
Qed.


(** *** Navigation *)

Lemma detach_ok_model env (m : Manager) s :
  snippet m = Some s -> result (detach env m) = inr tt.
Proof. intros Hs. apply detach_ok. intros _. rewrite Hs. eauto. Qed.

Lemma onLineChange_keeps_position content env (m : Manager) :
  let m' := final (onLineChange content env m) in
  currIndex m' = currIndex m /\ startLnum m' = startLnum m /\
  lineCount m' = lineCount m.
Proof.
  simpl.
  destruct (getDocument env (uri m)) as [d|] eqn:Hd.
  2:{ rewrite onLineChange_unbound by assumption. auto. }
  destruct (snippet m) as [s|] eqn:Hs.
  2:{ rewrite (onLineChange_no_model content env m d) by assumption. auto. }
  destruct (getChangeItem (toString s) content) as [change|] eqn:Hc.
  2:{ rewrite (onLineChange_identical content env m d s) by assumption. auto. }
  destruct (findPlaceholder s change (change_offset change)) as [ph start] eqn:Hf.
  assert (Hrej : (ph = None \/ exists p, ph = Some p /\ ph_index p = 0) ->
                 onLineChange content env m = detach env m)
    by (apply (onLineChange_rejects content env m d s change ph start); assumption).
  destruct ph as [p|].
  - destruct (Z.eq_dec (ph_index p) 0) as [Hp|Hp].
    + rewrite Hrej by eauto. pose proof (detach_keeps_position env m) as Hk. cbv zeta in Hk. tauto.
    + rewrite (onLineChange_updates content env m d s change p start) by assumption.
      rewrite setLines_run. destruct (String.eqb _ content); simpl; auto.
  - rewrite Hrej by eauto. pose proof (detach_keeps_position env m) as Hk. cbv zeta in Hk. tauto.
Qed.

Lemma onLineChange_wf content env (m : Manager) :
  wf m -> wf (final (onLineChange content env m)).
Proof.
  intros Hwf.
  destruct (getDocument env (uri m)) as [d|] eqn:Hd.
  2:{ now rewrite onLineChange_unbound. }
  destruct (snippet m) as [s|] eqn:Hs.
  2:{ now rewrite (onLineChange_no_model content env m d). }
  destruct (getChangeItem (toString s) content) as [change|] eqn:Hc.
  2:{ now rewrite (onLineChange_identical content env m d s). }
  destruct (findPlaceholder s change (change_offset change)) as [ph start] eqn:Hf.
  assert (Hrej : (ph = None \/ exists p, ph = Some p /\ ph_index p = 0) ->
                 onLineChange content env m = detach env m)
    by (apply (onLineChange_rejects content env m d s change ph start); assumption).
  destruct ph as [p|].
  - destruct (Z.eq_dec (ph_index p) 0) as [Hp|Hp].
    + rewrite Hrej by eauto. apply detach_wf.
    + rewrite (onLineChange_updates content env m d s change p start) by assumption.
      rewrite setLines_run. destruct (String.eqb _ content); simpl; intros _; simpl; eauto.
  - rewrite Hrej by eauto. apply detach_wf.
Qed.

Lemma ensureCurrentLine_run env (m : Manager) :
  ensureCurrentLine env m =
    match getDocument env (uri m), snippet m with
    | None, _ => mkOutcome (inr tt) m []
    | Some d, None => mkOutcome (inl TypeError) m []
    | Some d, Some s =>
        if String.eqb (toString s) (getline d (startLnum m))
        then mkOutcome (inr tt) m []
        else onLineChange (getline d (startLnum m)) env m
    end.
Proof.
  destruct m; simpl in *.
  unfold ensureCurrentLine. unfold_monad.
  destruct (getDocument env uri0) as [d|]; [|reflexivity].
  destruct snippet0 as [s|]; [|reflexivity]. unfold_monad.
  destruct (String.eqb _ _); [reflexivity|].
  case_call; reflexivity.
Qed.

Lemma ensureCurrentLine_keeps_position env (m : Manager) :
  let m' := final (ensureCurrentLine env m) in
  currIndex m' = currIndex m /\ startLnum m' = startLnum m /\
  lineCount m' = lineCount m.
Proof.
  simpl. rewrite ensureCurrentLine_run.
  destruct (getDocument env (uri m)); [|auto].
  destruct (snippet m); [|auto].
  destruct (String.eqb _ _); [auto|].
  apply onLineChange_keeps_position.
Qed.

Lemma ensureCurrentLine_wf env (m : Manager) :
  wf m -> wf (final (ensureCurrentLine env m)).
Proof.
  intros Hwf. rewrite ensureCurrentLine_run.
  destruct (getDocument env (uri m)); [|auto].
  destruct (snippet m) eqn:Hs; [|auto].
  destruct (String.eqb _ _); [auto|].
  now apply onLineChange_wf.
Qed.

#[local] Opaque ensureCurrentLine.

Lemma jumpTo_run marker env (m : Manager) :
  let o := ensureCurrentLine env m in
  jumpTo marker env m =
    match result o with
    | inl e => mkOutcome (inl e) (final o) (trace o)
    | inr _ =>
        match snippet (final o) with
        | None => mkOutcome (inl TypeError) (final o) (trace o)
        | Some s =>
            if rpc_fails env (jump_rpc s marker)
            then mkOutcome (inl (RpcError (jump_rpc s marker))) (final o)
                   (trace o ++ [jump_event (final o) s marker])
            else mkOutcome (inr tt) (focused (final o) (ph_index marker))
                   (trace o ++ [jump_event (final o) s marker])
        end
    end.
Proof.
  simpl. unfold jumpTo, jump_event, jump_rpc, focused. unfold bind at 1.
  destruct (ensureCurrentLine env m) as [[e|[]] m1 t1]; simpl; [reflexivity|].
  destruct m1 as [sn ? ? ? ? ? ?]. unfold_monad.
  destruct sn as [s|]; unfold_monad; [|now rewrite app_nil_r].
  destruct (ph_choice s marker); unfold_monad.
  - destruct (rpc_fails env RpcShowChoices); unfold_monad; reflexivity.
  - destruct (rpc_fails env RpcRangeSelect); unfold_monad; reflexivity.
Qed.

Lemma jumpTo_focus marker env (m : Manager) :
  let m' := final (jumpTo marker env m) in
  (currIndex m' = currIndex m \/ currIndex m' = ph_index marker) /\
  startLnum m' = startLnum m /\ lineCount m' = lineCount m.
Proof.
  simpl. rewrite jumpTo_run.
  pose proof (ensureCurrentLine_keeps_position env m) as (Hc & Hl & Hn).
  destruct (result (ensureCurrentLine env m)); [simpl; auto|].
  destruct (snippet (final (ensureCurrentLine env m))); [|simpl; auto].
  destruct (rpc_fails env _); simpl; auto.
Qed.

Lemma jumpTo_wf marker env (m : Manager) :
  wf m -> wf (final (jumpTo marker env m)).
Proof.
  intros Hwf. rewrite jumpTo_run.
  pose proof (ensureCurrentLine_wf env m Hwf) as Hwf1.
  destruct (result (ensureCurrentLine env m)); [exact Hwf1|].
  destruct (snippet (final (ensureCurrentLine env m))) eqn:Hs; [|exact Hwf1].
  destruct (rpc_fails env _); [exact Hwf1|].
  unfold wf, focused. simpl. intros _. rewrite Hs. eauto.
Qed.

#[local] Opaque jumpTo.

Lemma checkPosition_rejected env (m : Manager) :
  rpc_fails env RpcLine = true ->
  checkPosition env m = mkOutcome (inl (RpcError RpcLine)) m [CallLine].
Proof.
  intros Hf. unfold checkPosition. unfold_monad. rewrite Hf. reflexivity.
Qed.

Lemma checkPosition_valid env (m : Manager) :
  on_bound_line env m ->
  checkPosition env m = mkOutcome (inr true) m [CallLine].
Proof.
  intros [Hf Hl]. unfold checkPosition. unfold_monad. rewrite Hf. unfold_monad.
  rewrite bool_decide_eq_true_2 by congruence. reflexivity.
Qed.

Lemma checkPosition_invalid env (m : Manager) :
  off_bound_line env m ->
  checkPosition env m =
    mkOutcome
      (match result (detach env m) with inl e => inl e | inr _ => inr false end)
      (final (detach env m)) (CallLine :: trace (detach env m)).
Proof.
  intros [Hf Hl]. unfold checkPosition. unfold_monad. rewrite Hf. unfold_monad.
  rewrite bool_decide_eq_false_2 by congruence. simpl.
  case_call; simpl; [reflexivity|]. now rewrite app_nil_r.
Qed.

#[local] Opaque checkPosition.

Lemma jumpNext_jump_by : jumpNext = jump_by next_index.
Proof. reflexivity. Qed.

Lemma jumpPrev_jump_by : jumpPrev = jump_by prev_index.
Proof. reflexivity. Qed.

Lemma jump_by_no_model target env (m : Manager) :
  snippet m = None ->
  jump_by target env m = mkOutcome (inl TypeError) m [].
Proof.
  intros Hs. destruct m; simpl in *; subst.
  unfold jump_by. unfold_monad. reflexivity.
Qed.

Lemma jump_by_rejected target env (m : Manager) s :
  snippet m = Some s -> rpc_fails env RpcLine = true ->
  jump_by target env m = mkOutcome (inl (RpcError RpcLine)) m [CallLine].
Proof.
  intros Hs Hf. pose proof (checkPosition_rejected env m Hf) as Hc.
  destruct m; simpl in *; subst.
  unfold jump_by. unfold_monad. rewrite Hc. reflexivity.
Qed.

Lemma jump_by_off_line target env (m : Manager) s :
  snippet m = Some s -> off_bound_line env m ->
  jump_by target env m =
    mkOutcome (inr tt) (final (detach env m)) (CallLine :: trace (detach env m)).
Proof.
  intros Hs Hoff. pose proof (checkPosition_invalid env m Hoff) as Hc.
  rewrite (detach_ok_model env m s Hs) in Hc.
  destruct m; simpl in *; subst.
  unfold jump_by. unfold_monad. rewrite Hc. unfold_monad.
  now rewrite app_nil_r.
Qed.

Lemma jump_by_on_line target env (m : Manager) s :
  snippet m = Some s -> on_bound_line env m ->
  let idx := target (currIndex m) (maxIndex s) in
  jump_by target env m =
    match List.find (fun p => ph_index p =? idx) (placeholders s) with
    | None => mkOutcome (inr tt) (focused m idx) [CallLine]
    | Some p =>
        let o := jumpTo p env (focused m idx) in
        mkOutcome (result o) (final o) (CallLine :: trace o)
    end.
Proof.
  intros Hs Hon idx. subst idx.
  pose proof (checkPosition_valid env m Hon) as Hc.
  destruct m; simpl in *; subst.
  unfold jump_by, focused. unfold_monad. rewrite Hc. unfold_monad.
  destruct (List.find _ _) as [p|]; [|reflexivity].
  case_call; reflexivity.
Qed.

Lemma jump_by_focus target env (m : Manager) s :
  snippet m = Some s -> on_bound_line env m ->
  currIndex (final (jump_by target env m)) = target (currIndex m) (maxIndex s).
Proof.
  intros Hs Hon. rewrite (jump_by_on_line target env m s Hs Hon). simpl.
  destruct (List.find _ _) as [p|] eqn:Hfind; [|reflexivity].
  apply List.find_some in Hfind as [_ Hp]. apply Z.eqb_eq in Hp.
  simpl. destruct (jumpTo_focus p env (focused m (target (currIndex m) (maxIndex s))))
    as ([Hc|Hc] & _); simpl in Hc; congruence.
Qed.


Lemma round_to_double_exact n : Z.abs n <= two53 -> round_to_double n = n.
Proof.
  intros Hn. unfold round_to_double.
  destruct (Z.leb_spec (Z.abs n) two53); [reflexivity|lia].
Qed.

Lemma next_index_safe cur maxI :
  safe_integer cur ->
  next_index cur maxI = if cur =? maxI then 0 else cur + 1.
Proof.
  unfold safe_integer, next_index, js_add. intros Hc.
  destruct (cur =? maxI); [reflexivity|].
  apply round_to_double_exact. lia.
Qed.

Lemma prev_index_safe cur maxI :
  safe_integer cur ->
  prev_index cur maxI = if cur =? 0 then maxI else cur - 1.
Proof.
  unfold safe_integer, prev_index, js_sub. intros Hc.
  destruct (cur =? 0); [reflexivity|].
  apply round_to_double_exact. lia.
Qed.

Lemma next_index_mod cur maxI :
  maxI < two53 -> 0 <= cur <= maxI ->
  next_index cur maxI = (cur + 1) mod (maxI + 1).
Proof.
  intros Hm Hc. rewrite next_index_safe by (unfold safe_integer; lia).
  destruct (Z.eqb_spec cur maxI) as [->|Hne].
  - now rewrite Z.mod_same by lia.
  - rewrite Z.mod_small; lia.
Qed.

Lemma prev_index_mod cur maxI :
  maxI < two53 -> 0 <= cur <= maxI ->
  prev_index cur maxI = (cur - 1) mod (maxI + 1).
Proof.
  intros Hm Hc. rewrite prev_index_safe by (unfold safe_integer; lia).
  destruct (Z.eqb_spec cur 0) as [->|Hne].
  - replace (0 - 1) with (maxI + -1 * (maxI + 1)) by lia.
    rewrite Z.mod_add by lia. rewrite Z.mod_small; lia.
  - rewrite Z.mod_small; lia.
Qed.

Lemma jumps_next maxI n (m m' : Manager) :
  maxI < two53 ->
  jumps jumpNext maxI n m m' -> 0 <= currIndex m <= maxI ->
  currIndex m' = (currIndex m + Z.of_nat n) mod (maxI + 1).
Proof.
  intros Hm.
  induction 1 as [m | n env m s m' Hs Hmax Hon Hrest IH]; intros Hc.
  - rewrite Z.add_0_r, Z.mod_small; lia.
  - rewrite jumpNext_jump_by in IH.
    rewrite (jump_by_focus next_index env m s Hs Hon), Hmax in IH.
    rewrite next_index_mod in IH by assumption.
    rewrite IH
      by (pose proof (Z.mod_pos_bound (currIndex m + 1) (maxI + 1)); lia).
    rewrite Zplus_mod_idemp_l. f_equal. lia.
Qed.

Lemma jumps_prev maxI n (m m' : Manager) :
  maxI < two53 ->
  jumps jumpPrev maxI n m m' -> 0 <= currIndex m <= maxI ->
  currIndex m' = (currIndex m - Z.of_nat n) mod (maxI + 1).
Proof.
  intros Hm.
  induction 1 as [m | n env m s m' Hs Hmax Hon Hrest IH]; intros Hc.
  - rewrite Z.sub_0_r, Z.mod_small; lia.
  - rewrite jumpPrev_jump_by in IH.
    rewrite (jump_by_focus prev_index env m s Hs Hon), Hmax in IH.
    rewrite prev_index_mod in IH by assumption.
    rewrite IH
      by (pose proof (Z.mod_pos_bound (currIndex m - 1) (maxI + 1)); lia).
    rewrite Zminus_mod_idemp_l. f_equal. lia.
Qed.

Lemma jumps_none step maxI (m m' : Manager) :
  jumps step maxI O m m' -> m' = m.
Proof. inversion 1. reflexivity. Qed.

(** C4, as amended.  Navigation wraps around, on indices that are safe
    integers.  On a session that has its model (an active session has one)
    and whose cursor is on the bound line, [jumpNext] sets the focused
    index to 0 when it was the largest index and otherwise to the double
    nearest to the index plus one, which is the index plus one when the
    index is a safe integer (of magnitude below 2^53); [jumpPrev] sets it
    to the largest index when it was 0 and otherwise to the double nearest
    to the index minus one, the index minus one for a safe integer.
    Hence, from focused index 0 and with a largest index [maxI] below
    2^53, [maxI + 1] successive calls of [jumpNext], and likewise of
    [jumpPrev], bring the focused index back to 0. *)
Theorem navigation_is_cyclic maxI (m m_next m_prev : Manager) :
  maxI < two53 ->
  currIndex m = 0 ->
  jumps jumpNext maxI (Z.to_nat (maxI + 1)) m m_next ->
  jumps jumpPrev maxI (Z.to_nat (maxI + 1)) m m_prev ->
  (forall env (m0 : Manager) s,
     snippet m0 = Some s -> on_bound_line env m0 ->
     currIndex (final (jumpNext env m0)) =
       (if currIndex m0 =? maxIndex s then 0 else js_add (currIndex m0) 1) /\
     currIndex (final (jumpPrev env m0)) =
       (if currIndex m0 =? 0 then maxIndex s else js_sub (currIndex m0) 1) /\
     (safe_integer (currIndex m0) ->
      currIndex (final (jumpNext env m0)) =
        (if currIndex m0 =? maxIndex s then 0 else currIndex m0 + 1) /\
      currIndex (final (jumpPrev env m0)) =
        (if currIndex m0 =? 0 then maxIndex s else currIndex m0 - 1))) /\
  currIndex m_next = 0 /\
  currIndex m_prev = 0.
Proof.
  intros Hbound Hzero Hnext Hprev. split.
  { intros env m0 s Hs Hon.
    assert (Hn : currIndex (final (jumpNext env m0)) =
                 next_index (currIndex m0) (maxIndex s)).
    { rewrite jumpNext_jump_by. apply (jump_by_focus next_index env m0 s Hs Hon). }
    assert (Hp : currIndex (final (jumpPrev env m0)) =
                 prev_index (currIndex m0) (maxIndex s)).
    { rewrite jumpPrev_jump_by. apply (jump_by_focus prev_index env m0 s Hs Hon). }
    split; [exact Hn|]. split; [exact Hp|]. intros Hsafe.
    rewrite Hn, Hp, next_index_safe, prev_index_safe by assumption. auto. }
  destruct (Z_le_gt_dec 0 maxI) as [Hmax|Hmax].
  - split.
    + rewrite (jumps_next maxI _ m m_next Hbound Hnext) by lia.
      rewrite Hzero, Z2Nat.id by lia. simpl. apply Z.mod_same. lia.
    + rewrite (jumps_prev maxI _ m m_prev Hbound Hprev) by lia.
      rewrite Hzero, Z2Nat.id by lia.
      replace (0 - (maxI + 1)) with (0 + -1 * (maxI + 1)) by lia.
      rewrite Z.mod_add by lia. apply Z.mod_0_l. lia.
  - replace (Z.to_nat (maxI + 1)) with O in * by lia.
    apply jumps_none in Hnext, Hprev. subst. auto.
Qed.

(** C7. On a session that has its model: when [checkPosition] finds the
    cursor off the bound line, [jumpNext] and [jumpPrev] do what [detach]
    does after the line query and nothing more, so the session is
    inactive, the focused index is the one it was and no jump is issued;
    when the cursor is on the bound line and no placeholder has the index
    the method computes with wraparound ([next_index], [prev_index]: the
    sum or difference is a double's), the focused index is set to that
    index and the line query is the only call issued. *)
Theorem navigation_guards env (m : Manager) s :
  snippet m = Some s ->
  (off_bound_line env m ->
     jumpNext env m =
       mkOutcome (inr tt) (final (detach env m)) (CallLine :: trace (detach env m)) /\
     jumpPrev env m =
       mkOutcome (inr tt) (final (detach env m)) (CallLine :: trace (detach env m)) /\
     currIndex (final (detach env m)) = currIndex m /\
     activted (final (detach env m)) = false /\
     filter is_jump (CallLine :: trace (detach env m)) = []) /\
  (on_bound_line env m ->
     (List.find (fun p => ph_index p =? next_index (currIndex m) (maxIndex s))
        (placeholders s) = None ->
      jumpNext env m =
        mkOutcome (inr tt) (focused m (next_index (currIndex m) (maxIndex s)))
          [CallLine]) /\
     (List.find (fun p => ph_index p =? prev_index (currIndex m) (maxIndex s))
        (placeholders s) = None ->
      jumpPrev env m =
        mkOutcome (inr tt) (focused m (prev_index (currIndex m) (maxIndex s)))
          [CallLine])).
Proof.
  intros Hs. split.
  - intros Hoff. rewrite jumpNext_jump_by, jumpPrev_jump_by.
    rewrite !(jump_by_off_line _ env m s Hs Hoff).
    repeat split.
    + apply detach_keeps_position.
    + apply detach_final_inactive.
    + apply (detach_no_jump env m).
  - intros Hon. rewrite jumpNext_jump_by, jumpPrev_jump_by.
    rewrite !(jump_by_on_line _ env m s Hs Hon). simpl.
    split; intros ->; reflexivity.
Qed.

(** *** The invariant holds in every reachable state *)

Lemma wf_initial : wf (initial : Manager).
Proof. intros Hact. discriminate. Qed.

Lemma catch_log_wf (c : M unit) env (m : Manager) :
  wf (final (c env m)) -> wf (final (try_catch c onError env m)).
Proof. now rewrite catch_log_final. Qed.

Lemma jump_by_wf target env (m : Manager) :
  wf m -> wf (final (jump_by target env m)).
Proof.
  intros Hwf. destruct (snippet m) as [s|] eqn:Hs.
  2:{ now rewrite jump_by_no_model. }
  destruct (rpc_fails env RpcLine) eqn:Hf.
  { now rewrite (jump_by_rejected target env m s). }
  destruct (decide (startLnum m = Some (cursor_line env - 1))) as [Hl|Hl].
  - rewrite (jump_by_on_line target env m s Hs (conj Hf Hl)). simpl.
    assert (Hwf' : forall i, wf (focused m i)).
    { intros i _. simpl. rewrite Hs. eauto. }
    destruct (List.find _ _) as [p|]; simpl; [|apply Hwf'].
    apply jumpTo_wf, Hwf'.
  - rewrite (jump_by_off_line target env m s Hs (conj Hf Hl)). simpl.
    apply detach_wf.
Qed.

Lemma checkPosition_wf env (m : Manager) :
  wf m -> wf (final (checkPosition env m)).
Proof.
  intros Hwf. destruct (rpc_fails env RpcLine) eqn:Hf.
  { now rewrite checkPosition_rejected. }
  destruct (decide (startLnum m = Some (cursor_line env - 1))) as [Hl|Hl].
  - now rewrite (checkPosition_valid env m (conj Hf Hl)).
  - rewrite (checkPosition_invalid env m (conj Hf Hl)). apply detach_wf.
Qed.

Lemma insertSnippet_wf d line newLine env (m : Manager) :
  wf m -> wf (final (insertSnippet d line newLine env m)).
Proof.
  intros Hwf Hact. exfalso.
  pose proof (detach_ok env m Hwf) as Hok.
  rewrite (insertSnippet_detaches_first d line newLine env m Hok) in Hact.
  simpl in Hact.
  destruct (insertSnippet_inactive_cases d line newLine env
              (final (detach env m)) (detach_final_inactive env m)) as (_ & Ha & _).
  congruence.
Qed.

Lemma onDocumentChange_wf e env (m : Manager) :
  wf m -> wf (final (onDocumentChange e env m)).
Proof.
  intros Hwf.
  destruct (activted m) eqn:Hact.
  2:{ rewrite onDocumentChange_ignores by auto. exact Hwf. }
  destruct (getDocument env (uri m)) as [d|] eqn:Hd.
  2:{ rewrite onDocumentChange_ignores by auto. exact Hwf. }
  destruct (decide (uri m = Some (textDocument_uri e))) as [Hu|Hu].
  2:{ rewrite onDocumentChange_ignores by auto. exact Hwf. }
  destruct (decide (lineCount m = Some (doc_lineCount d))) as [Hl|Hl].
  2:{ rewrite (onDocumentChange_line_count e env m d) by assumption.
      apply catch_log_wf, detach_wf. }
  destruct (Hwf Hact) as [s Hs].
  destruct (one_step_past d m) eqn:Ht.
  { now rewrite (onDocumentChange_own_write e env m d s). }
  rewrite (onDocumentChange_stale e env m d s) by assumption.
  destruct (String.eqb _ _); apply catch_log_wf.
  - apply detach_wf.
  - now apply onLineChange_wf.
Qed.

Lemma onDidCloseTextDocument_wf closed env (m : Manager) :
  wf m -> wf (final (onDidCloseTextDocument closed env m)).
Proof.
  intros Hwf. assert (Hd : wf (final (try_catch detach onError env m)))
    by apply catch_log_wf, detach_wf.
  destruct m. unfold onDidCloseTextDocument in *. unfold_monad.
  destruct (bool_decide _); [|exact Hwf].
  revert Hd. case_call; simpl; auto.
Qed.

Lemma jumpTo_ok_model marker env (m : Manager) :
  result (jumpTo marker env m) = inr tt ->
  is_Some (snippet (final (jumpTo marker env m))).
Proof.
  rewrite jumpTo_run.
  destruct (result (ensureCurrentLine env m)); [discriminate|].
  destruct (snippet (final (ensureCurrentLine env m))) eqn:Hs; [|discriminate].
  destruct (rpc_fails env _); [discriminate|].
  intros _. simpl. rewrite Hs. eauto.
Qed.

Lemma attach_wf env (m : Manager) :
  wf m -> wf (final (attach env m)).
Proof.
  intros Hwf. destruct m as [sn act sl lc u ci ct].
  unfold attach. unfold_monad.
  destruct (getDocument env u) as [d|]; [|destruct sn; exact Hwf].
  destruct sn as [s|]; [|exact Hwf]. unfold_monad.
  destruct (rpc_fails env RpcLine); unfold_monad; [exact Hwf|].
  set (m2 := {| snippet := Some s; activted := act;
                startLnum := Some (cursor_line env - 1);
                lineCount := Some (doc_lineCount d); uri := u;
                currIndex := ci; changedtick := ct |}).
  assert (Hwf2 : wf m2) by (intros _; simpl; eauto).
  destruct (firstPlaceholder s) as [p|].
  - pose proof (jumpTo_wf p env m2 Hwf2) as Hw.
    pose proof (jumpTo_ok_model p env m2) as Hk.
    destruct (jumpTo p env m2) as [[e|[]] m1 t1]; simpl in *; [exact Hw|].
    destruct m1 as [sn1 ? ? ? ? ? ?]. unfold_monad.
    destruct (Hk eq_refl) as [s1 ->]. simpl.
    destruct (hasPlaceholder s1); unfold_monad.
    + destruct (rpc_fails env RpcEnable); unfold_monad; [exact Hw|].
      intros _. simpl. eauto.
    + intros _. simpl. eauto.
  - unfold_monad. subst m2.
    destruct (hasPlaceholder s); unfold_monad.
    + destruct (rpc_fails env RpcEnable); unfold_monad; [exact Hwf2|].
      intros _. simpl. eauto.
    + intros _. simpl. eauto.
Qed.

(** X1. The invariant is an invariant: it holds initially and every method
    and handler preserves it, however the call ends; so in every state the
    manager can reach, an active session has a model. *)
Theorem reachable_wf (m : Manager) : reachable m -> wf m.
Proof.
  induction 1.
  - apply wf_initial.
  - now apply attach_wf.
  - apply detach_wf.
  - now apply insertSnippet_wf.
  - now apply jumpTo_wf.
  - rewrite jumpNext_jump_by. now apply jump_by_wf.
  - rewrite jumpPrev_jump_by. now apply jump_by_wf.
  - now apply checkPosition_wf.
  - now apply onDocumentChange_wf.
  - now apply onDidCloseTextDocument_wf.
Qed.

(** *** What the methods leave alone *)

Lemma settles_refl (m : Manager) : settles m m.
Proof. unfold settles. tauto. Qed.

Lemma settles_trans (m1 m2 m3 : Manager) :
  settles m1 m2 -> settles m2 m3 -> settles m1 m3.
Proof.
  unfold settles.
  intros (Ha1 & Hb1 & Hc1 & Hd1 & He1 & Hf1) (Ha2 & Hb2 & Hc2 & Hd2 & He2 & Hf2).
  repeat split; try congruence; try tauto.
  destruct Hf2 as [Hf2|[Hf2|Hf2]]; try tauto.
  rewrite Hf2. tauto.
Qed.

Lemma settles_focused (m : Manager) i : settles m (focused m i).
Proof. unfold settles. simpl. tauto. Qed.

Lemma defined_settles (m m' : Manager) :
  defined m -> settles m m' -> defined m'.
Proof.
  unfold defined, settles.
  intros (Hact & Hmodel) (Ha & Hb & Hc & Hd & He & Hf). split.
  - intros Hact'. destruct (Hact (Hc Hact')) as (H1 & H2 & H3).
    rewrite Ha, Hb. auto.
  - intros Hs. destruct Hf as [Hf|[Hf|Hf]]; auto.
    + rewrite Hf in Hs. auto.
    + rewrite Hf in Hs. destruct Hs as [? Hs]. discriminate.
Qed.

Lemma detach_settles env (m : Manager) : settles m (final (detach env m)).
Proof.
  destruct (detach_cases env m); unfold settles; simpl;
    repeat split; eauto; try discriminate.
Qed.

Lemma onLineChange_settles content env (m : Manager) :
  settles m (final (onLineChange content env m)).
Proof.
  destruct (getDocument env (uri m)) as [d|] eqn:Hd.
  2:{ rewrite onLineChange_unbound by assumption. apply settles_refl. }
  destruct (snippet m) as [s|] eqn:Hs.
  2:{ rewrite (onLineChange_no_model content env m d) by assumption.
      apply settles_refl. }
  destruct (getChangeItem (toString s) content) as [change|] eqn:Hc.
  2:{ rewrite (onLineChange_identical content env m d s) by assumption.
      apply settles_refl. }
  destruct (findPlaceholder s change (change_offset change)) as [ph start] eqn:Hf.
  assert (Hrej : (ph = None \/ exists p, ph = Some p /\ ph_index p = 0) ->
                 onLineChange content env m = detach env m)
    by (apply (onLineChange_rejects content env m d s change ph start); assumption).
  assert (Hupd : forall s' t, settles m (reconciled m s' t)).
  { intros s' t. unfold settles. simpl. repeat split; eauto. }
  destruct ph as [p|].
  - destruct (Z.eq_dec (ph_index p) 0) as [Hp|Hp].
    + rewrite Hrej by eauto. apply detach_settles.
    + rewrite (onLineChange_updates content env m d s change p start) by assumption.
      rewrite setLines_run. destruct (String.eqb _ content); simpl; apply Hupd.
  - rewrite Hrej by eauto. apply detach_settles.
Qed.

Lemma ensureCurrentLine_settles env (m : Manager) :
  settles m (final (ensureCurrentLine env m)).
Proof.
  rewrite ensureCurrentLine_run.
  destruct (getDocument env (uri m)); [|apply settles_refl].
  destruct (snippet m); [|apply settles_refl].
  destruct (String.eqb _ _); [apply settles_refl|].
  apply onLineChange_settles.
Qed.

Lemma jumpTo_settles marker env (m : Manager) :
  settles m (final (jumpTo marker env m)).
Proof.
  rewrite jumpTo_run.
  pose proof (ensureCurrentLine_settles env m) as Hs.
  destruct (result (ensureCurrentLine env m)); [exact Hs|].
  destruct (snippet (final (ensureCurrentLine env m))); [|exact Hs].
  destruct (rpc_fails env _); [exact Hs|].
  simpl. eapply settles_trans; [exact Hs|apply settles_focused].
Qed.

Lemma checkPosition_settles env (m : Manager) :
  settles m (final (checkPosition env m)).
Proof.
  destruct (rpc_fails env RpcLine) eqn:Hf.
  { rewrite checkPosition_rejected by assumption. apply settles_refl. }
  destruct (decide (startLnum m = Some (cursor_line env - 1))) as [Hl|Hl].
  - rewrite (checkPosition_valid env m (conj Hf Hl)). apply settles_refl.
  - rewrite (checkPosition_invalid env m (conj Hf Hl)). apply detach_settles.
Qed.

Lemma jump_by_settles target env (m : Manager) :
  settles m (final (jump_by target env m)).
Proof.
  destruct (snippet m) as [s|] eqn:Hs.
  2:{ rewrite jump_by_no_model by assumption. apply settles_refl. }
  destruct (rpc_fails env RpcLine) eqn:Hf.
  { rewrite (jump_by_rejected target env m s) by assumption. apply settles_refl. }
  destruct (decide (startLnum m = Some (cursor_line env - 1))) as [Hl|Hl].
  - rewrite (jump_by_on_line target env m s Hs (conj Hf Hl)). simpl.
    destruct (List.find _ _) as [p|]; simpl; [|apply settles_focused].
    eapply settles_trans; [apply settles_focused|apply jumpTo_settles].
  - rewrite (jump_by_off_line target env m s Hs (conj Hf Hl)). simpl.
    apply detach_settles.
Qed.

Lemma catch_log_settles (c : M unit) env (m : Manager) :
  settles m (final (c env m)) -> settles m (final (try_catch c onError env m)).
Proof. now rewrite catch_log_final. Qed.

Lemma onDocumentChange_no_model e env (m : Manager) d :
  activted m = true -> getDocument env (uri m) = Some d ->
  uri m = Some (textDocument_uri e) ->
  lineCount m = Some (doc_lineCount d) ->
  snippet m = None ->
  onDocumentChange e env m = mkOutcome (inl TypeError) m [].
Proof.
  intros Hact Hd Hu Hl Hs. destruct m; simpl in *; subst.
  unfold onDocumentChange. unfold_monad. rewrite Hd.
  rewrite !(bool_decide_eq_true_2 _ eq_refl). reflexivity.
Qed.

Lemma onDocumentChange_settles e env (m : Manager) :
  settles m (final (onDocumentChange e env m)).
Proof.
  destruct (activted m) eqn:Hact.
  2:{ rewrite onDocumentChange_ignores by auto. apply settles_refl. }
  destruct (getDocument env (uri m)) as [d|] eqn:Hd.
  2:{ rewrite onDocumentChange_ignores by auto. apply settles_refl. }
  destruct (decide (uri m = Some (textDocument_uri e))) as [Hu|Hu].
  2:{ rewrite onDocumentChange_ignores by auto. apply settles_refl. }
  destruct (decide (lineCount m = Some (doc_lineCount d))) as [Hl|Hl].
  2:{ rewrite (onDocumentChange_line_count e env m d) by assumption.
      apply catch_log_settles, detach_settles. }
  destruct (snippet m) as [s|] eqn:Hs.
  2:{ rewrite (onDocumentChange_no_model e env m d) by assumption.
      apply settles_refl. }
  destruct (one_step_past d m) eqn:Ht.
  { rewrite (onDocumentChange_own_write e env m d s) by assumption.
    apply settles_refl. }
  rewrite (onDocumentChange_stale e env m d s) by assumption.
  destruct (String.eqb _ _); apply catch_log_settles.
  - apply detach_settles.
  - apply onLineChange_settles.
Qed.

Lemma onDidCloseTextDocument_run closed env (m : Manager) :
  onDidCloseTextDocument closed env m =
    if bool_decide (Some closed = uri m)
    then try_catch detach onError env m
    else mkOutcome (inr tt) m [].
Proof.
  destruct m. unfold onDidCloseTextDocument. unfold_monad.
  destruct (bool_decide _); [|reflexivity].
  case_call; reflexivity.
Qed.

Lemma onDidCloseTextDocument_settles closed env (m : Manager) :
  settles m (final (onDidCloseTextDocument closed env m)).
Proof.
  rewrite onDidCloseTextDocument_run.
  destruct (bool_decide _); [|apply settles_refl].
  apply catch_log_settles, detach_settles.
Qed.

(** *** The runs of onLineChange, ensureCurrentLine and attach *)

Lemma onLineChange_cases content env (m : Manager) :
  reconcile_run env m content (onLineChange content env m).
Proof.
  destruct (getDocument env (uri m)) as [d|] eqn:Hd.
  2:{ rewrite onLineChange_unbound by assumption. now apply reconcile_unbound. }
  destruct (snippet m) as [s|] eqn:Hs.
  2:{ rewrite (onLineChange_no_model content env m d) by assumption.
      now apply (reconcile_no_model env m content d). }
  destruct (getChangeItem (toString s) content) as [change|] eqn:Hc.
  2:{ rewrite (onLineChange_identical content env m d s) by assumption.
      now apply (reconcile_identical env m content d s). }
  destruct (findPlaceholder s change (change_offset change)) as [ph start] eqn:Hf.
  assert (Hrej : (ph = None \/ exists p, ph = Some p /\ ph_index p = 0) ->
                 onLineChange content env m = detach env m)
    by (apply (onLineChange_rejects content env m d s change ph start); assumption).
  destruct ph as [p|].
  - destruct (Z.eq_dec (ph_index p) 0) as [Hp|Hp].
    + rewrite Hrej by eauto. now apply (reconcile_detach env m content d s).
    + rewrite (onLineChange_updates content env m d s change p start) by assumption.
      rewrite setLines_run. destruct (String.eqb _ content) eqn:He.
      * apply String.eqb_eq in He. now apply reconcile_in_step.
      * apply String.eqb_neq in He. now apply reconcile_write.
  - rewrite Hrej by eauto. now apply (reconcile_detach env m content d s).
Qed.

Lemma attach_idle env (m : Manager) :
  snippet m = None \/ getDocument env (uri m) = None ->
  attach env m = mkOutcome (inr tt) m [].
Proof.
  intros Hc. destruct m as [sn act sl lc u ci ct]; simpl in *.
  unfold attach. unfold_monad.
  destruct (getDocument env u) as [d|]; destruct sn as [s|];
    try reflexivity; destruct Hc; discriminate.
Qed.

Lemma attach_run env (m : Manager) s d :
  snippet m = Some s -> getDocument env (uri m) = Some d ->
  attach env m =
    if rpc_fails env RpcLine
    then mkOutcome (inl (RpcError RpcLine)) m [CallLine]
    else
      let m2 := bound_at m (cursor_line env - 1) (doc_lineCount d) in
      match firstPlaceholder s with
      | Some p =>
          let o := jumpTo p env m2 in
          match result o with
          | inl e => mkOutcome (inl e) (final o) (CallLine :: trace o)
          | inr _ =>
              attach_finish env (final o) (default s (snippet (final o)))
                (CallLine :: trace o)
          end
      | None => attach_finish env m2 s [CallLine]
      end.
Proof.
  intros Hs Hd. destruct m as [sn act sl lc u ci ct]; simpl in *; subst.
  unfold attach, attach_finish, bound_at, activated. unfold_monad.
  rewrite Hd. unfold_monad.
  destruct (rpc_fails env RpcLine); unfold_monad; [reflexivity|].
  destruct (firstPlaceholder s) as [p|]; unfold_monad.
  - case_call; simpl; [reflexivity|].
    match goal with
    | |- context [default s (snippet ?x)] => destruct x as [sn1 ? ? ? ? ? ?]
    end.
    unfold_monad.
    destruct (hasPlaceholder (default s sn1)); unfold_monad.
    + destruct (rpc_fails env RpcEnable); unfold_monad;
        rewrite <- ?app_assoc; reflexivity.
    + now rewrite app_nil_r.
  - destruct (hasPlaceholder s); unfold_monad; [|reflexivity].
    destruct (rpc_fails env RpcEnable); unfold_monad; reflexivity.
Qed.

(** *** Fields that are set stay set; only attach activates *)

Lemma insertSnippet_seq d line newLine env (m : Manager) :
  let o1 := detach env m in
  let o2 := insertSnippet d line newLine env (final o1) in
  insertSnippet d line newLine env m =
    match result o1 with
    | inl e => mkOutcome (inl e) (final o1) (trace o1)
    | inr _ => mkOutcome (result o2) (final o2) (trace o1 ++ trace o2)
    end.
Proof.
  simpl. destruct (result (detach env m)) as [e|[]] eqn:Hres.
  2:{ now apply insertSnippet_detaches_first. }
  destruct (activted m) eqn:Hact.
  2:{ rewrite detach_inactive in Hres by assumption. discriminate. }
  destruct m as [sn act sl lc u ci ct]; simpl in Hact; subst act.
  unfold insertSnippet. unfold_monad.
  revert Hres. case_call; simpl; [|discriminate].
  intros [= ->]. reflexivity.
Qed.

Lemma insertSnippet_settles d line newLine env (m : Manager) :
  settles m (final (insertSnippet d line newLine env m)).
Proof.
  rewrite insertSnippet_seq.
  pose proof (detach_settles env m) as Hdet.
  pose proof (detach_final_inactive env m) as Hin.
  destruct (result (detach env m)); [exact Hdet|]. simpl.
  eapply settles_trans; [exact Hdet|].
  destruct (newSnippet newLine) as [s|] eqn:Hp.
  - rewrite (insertSnippet_inactive_parsed d line newLine env _ s) by assumption.
    unfold settles. simpl. repeat split; eauto.
  - rewrite insertSnippet_inactive_parse_error by assumption.
    unfold settles. simpl. repeat split; eauto.
Qed.

Lemma attach_defined env (m : Manager) :
  defined m -> defined (final (attach env m)).
Proof.
  intros Hdef.
  destruct (snippet m) as [s|] eqn:Hs.
  2:{ rewrite attach_idle by auto. exact Hdef. }
  destruct (getDocument env (uri m)) as [d|] eqn:Hd.
  2:{ rewrite attach_idle by auto. exact Hdef. }
  rewrite (attach_run env m s d Hs Hd).
  destruct (rpc_fails env RpcLine); [exact Hdef|].
  assert (Huri : is_Some (uri m)).
  { destruct (uri m); [eauto|discriminate]. }
  set (m2 := bound_at m (cursor_line env - 1) (doc_lineCount d)).
  assert (H2 : defined m2 /\ is_Some (startLnum m2) /\ is_Some (lineCount m2) /\
               is_Some (uri m2)).
  { unfold defined, m2. simpl. destruct Hdef as [_ Hm]. repeat split; eauto. }
  assert (Hfin : forall (m1 : Manager) s1 t,
            settles m2 m1 -> defined (final (attach_finish env m1 s1 t))).
  { intros m1 s1 t Hst.
    pose proof (defined_settles m2 m1 (proj1 H2) Hst) as Hd1.
    assert (Hd2 : defined (activated m1)).
    { destruct Hst as (Ha & Hb & _ & Hu & _). destruct H2 as (_ & H3 & H4 & H5).
      destruct Hd1 as [_ Hm]. unfold defined. simpl. rewrite Ha, Hb.
      split; auto. }
    unfold attach_finish. destruct (hasPlaceholder s1); [|exact Hd2].
    destruct (rpc_fails env RpcEnable); simpl; assumption. }
  cbv zeta. fold m2. destruct (firstPlaceholder s) as [p|].
  - pose proof (jumpTo_settles p env m2) as Hst.
    destruct (result (jumpTo p env m2)).
    + simpl. exact (defined_settles m2 _ (proj1 H2) Hst).
    + apply Hfin, Hst.
  - apply Hfin, settles_refl.
Qed.

(** X2. No comparison of an active session meets an unset field: in every
    state the manager can reach, an active session has its bound line, its
    line count and its uri set, and a session that has a model has a
    recorded change counter. *)
Theorem reachable_defined (m : Manager) :
  reachable m ->
  (activted m = true ->
     is_Some (startLnum m) /\ is_Some (lineCount m) /\ is_Some (uri m)) /\
  (is_Some (snippet m) -> is_Some (changedtick m)).
Proof.
  intros Hr. change (defined m).
  induction Hr as [| env m _ Hd | env m _ Hd | d line newLine env m _ Hd
                   | marker env m _ Hd | env m _ Hd | env m _ Hd
                   | env m _ Hd | e env m _ Hd | closed env m _ Hd].
  - split; [discriminate|]. intros [? Hs]. discriminate.
  - now apply attach_defined.
  - exact (defined_settles _ _ Hd (detach_settles env m)).
  - exact (defined_settles _ _ Hd (insertSnippet_settles d line newLine env m)).
  - exact (defined_settles _ _ Hd (jumpTo_settles marker env m)).
  - rewrite jumpNext_jump_by.
    exact (defined_settles _ _ Hd (jump_by_settles next_index env m)).
  - rewrite jumpPrev_jump_by.
    exact (defined_settles _ _ Hd (jump_by_settles prev_index env m)).
  - exact (defined_settles _ _ Hd (checkPosition_settles env m)).
  - exact (defined_settles _ _ Hd (onDocumentChange_settles e env m)).
  - exact (defined_settles _ _ Hd (onDidCloseTextDocument_settles closed env m)).
Qed.

(** X3. [attach] is the only method that activates: on an inactive
    session every other method and handler ends with the session
    inactive, whatever its arguments, its environment and its result. *)
Theorem only_attach_activates env (m : Manager) :
  activted m = false ->
  activted (final (detach env m)) = false /\
  (forall d line newLine,
     activted (final (insertSnippet d line newLine env m)) = false) /\
  (forall marker, activted (final (jumpTo marker env m)) = false) /\
  activted (final (jumpNext env m)) = false /\
  activted (final (jumpPrev env m)) = false /\
  activted (final (checkPosition env m)) = false /\
  (forall e, activted (final (onDocumentChange e env m)) = false) /\
  (forall closed, activted (final (onDidCloseTextDocument closed env m)) = false).
Proof.
  intros Hact.
  assert (Hno : forall m' : Manager, settles m m' -> activted m' = false).
  { intros m' (_ & _ & Hc & _). destruct (activted m'); [|reflexivity].
    rewrite Hc in Hact by reflexivity. discriminate. }
  repeat split; intros; apply Hno.
  - apply detach_settles.
  - apply insertSnippet_settles.
  - apply jumpTo_settles.
  - rewrite jumpNext_jump_by. apply jump_by_settles.
  - rewrite jumpPrev_jump_by. apply jump_by_settles.
  - apply checkPosition_settles.
  - apply onDocumentChange_settles.
  - apply onDidCloseTextDocument_settles.
Qed.

(** *** attach and jumpTo *)

Lemma detach_trace_kind env (m : Manager) :
  Forall (fun ev => from_reconcile ev = true) (trace (detach env m)).
Proof.
  destruct (detach_cases env m); simpl; auto.
  unfold disable_trace. destruct (rpc_fails env RpcDisable); repeat constructor.
Qed.

Lemma onLineChange_trace_kind content env (m : Manager) :
  Forall (fun ev => from_reconcile ev = true) (trace (onLineChange content env m)).
Proof.
  destruct (onLineChange_cases content env m); simpl; auto.
  apply detach_trace_kind.
Qed.

Lemma ensureCurrentLine_trace_kind env (m : Manager) :
  Forall (fun ev => from_reconcile ev = true) (trace (ensureCurrentLine env m)).
Proof.
  rewrite ensureCurrentLine_run.
  destruct (getDocument env (uri m)); [|constructor].
  destruct (snippet m); [|constructor].
  destruct (String.eqb _ _); [constructor|].
  apply onLineChange_trace_kind.
Qed.

Lemma filter_none_of_kind (P : Event -> bool) (t : list Event) :
  (forall ev, from_reconcile ev = true -> P ev = false) ->
  Forall (fun ev => from_reconcile ev = true) t ->
  filter P t = [].
Proof.
  intros HP. induction 1 as [|ev t Hev _ IH]; [reflexivity|].
  rewrite filter_cons, (HP ev Hev). simpl. exact IH.
Qed.

Lemma reconcile_not_jump ev : from_reconcile ev = true -> is_jump ev = false.
Proof. destruct ev; simpl; congruence. Qed.

Lemma reconcile_not_enable ev : from_reconcile ev = true -> is_enable ev = false.
Proof. destruct ev; simpl; congruence. Qed.

Lemma attach_finish_cases env (m1 : Manager) s1 t :
  activted m1 = false ->
  let o := attach_finish env m1 s1 t in
  (activted (final o) = true <-> result o = inr tt) /\
  startLnum (final o) = startLnum m1 /\ lineCount (final o) = lineCount m1 /\
  snippet (final o) = snippet m1.
Proof.
  intros Hact. unfold attach_finish.
  destruct (hasPlaceholder s1); [destruct (rpc_fails env RpcEnable)|]; simpl;
    rewrite ?Hact; repeat split; auto; discriminate.
Qed.

(** X4. [attach] activates all or nothing.  On an inactive session the
    session is active afterwards exactly when [attach] returned normally
    and there were a model and a bound document: a rejected editor call
    leaves the session inactive.  An activated session is bound to the
    line of the cursor (zero-based) and records the line count of the
    document, and it has a model. *)
Theorem attach_activation env (m : Manager) :
  activted m = false ->
  let o := attach env m in
  (activted (final o) = true <->
     result o = inr tt /\ is_Some (snippet m) /\
     is_Some (getDocument env (uri m))) /\
  (activted (final o) = true ->
     startLnum (final o) = Some (cursor_line env - 1) /\
     is_Some (snippet (final o)) /\
     exists d, getDocument env (uri m) = Some d /\
               lineCount (final o) = Some (doc_lineCount d)).
Proof.
  intros Hact o. subst o.
  assert (Hwf : wf m) by (intros Ha; congruence).
  pose proof (attach_wf env m Hwf) as Hwf'.
  destruct (snippet m) as [s|] eqn:Hs.
  2:{ rewrite attach_idle by auto. simpl. rewrite Hact.
      split; [split|]; try discriminate.
      intros (_ & [? Hn] & _). discriminate. }
  destruct (getDocument env (uri m)) as [d|] eqn:Hd.
  2:{ rewrite attach_idle by auto. simpl. rewrite Hact.
      split; [split|]; try discriminate.
      intros (_ & _ & [? Hn]). discriminate. }
  rewrite (attach_run env m s d Hs Hd) in *.
  destruct (rpc_fails env RpcLine).
  { simpl. rewrite Hact. split; [split|]; try discriminate.
    intros (Hn & _). discriminate. }
  cbv zeta in *.
  set (m2 := bound_at m (cursor_line env - 1) (doc_lineCount d)) in *.
  assert (Hfin : forall (m1 : Manager) s1 t,
            settles m2 m1 ->
            wf (final (attach_finish env m1 s1 t)) ->
            let o := attach_finish env m1 s1 t in
            (activted (final o) = true <->
               result o = inr tt /\ is_Some (Some s) /\ is_Some (Some d)) /\
            (activted (final o) = true ->
               startLnum (final o) = Some (cursor_line env - 1) /\
               is_Some (snippet (final o)) /\
               exists d0, Some d = Some d0 /\
                          lineCount (final o) = Some (doc_lineCount d0))).
  { intros m1 s1 t (Ha & Hb & Hc & _) Hw.
    assert (Hin : activted m1 = false).
    { destruct (activted m1); [|reflexivity]. rewrite <- Hact. symmetry.
      now apply Hc. }
    destruct (attach_finish_cases env m1 s1 t Hin) as (Hiff & Hl & Hn & _).
    cbv zeta in *. rewrite Hl, Hn, Ha, Hb. split.
    - rewrite Hiff. split; [intros Hr; repeat split; eauto | tauto].
    - intros Hon. split; [reflexivity|]. split; [now apply Hw|]. eauto. }
  destruct (firstPlaceholder s) as [p|].
  - pose proof (jumpTo_settles p env m2) as Hst.
    destruct (result (jumpTo p env m2)) eqn:Hres.
    + simpl. assert (Hin : activted (final (jumpTo p env m2)) = false).
      { destruct Hst as (_ & _ & Hc & _).
        destruct (activted (final (jumpTo p env m2))); [|reflexivity].
        rewrite <- Hact. symmetry. now apply Hc. }
      rewrite Hin. split; [split|]; try discriminate.
      intros (Hn & _). discriminate.
    + now apply Hfin.
  - apply Hfin; [apply settles_refl|assumption].
Qed.

Lemma jumpTo_trace marker env (m : Manager) :
  let o1 := ensureCurrentLine env m in
  exists t', trace (jumpTo marker env m) = trace o1 ++ t' /\
    (t' = [] \/
     exists s, snippet (final o1) = Some s /\
               t' = [jump_event (final o1) s marker]).
Proof.
  simpl. rewrite jumpTo_run.
  destruct (result (ensureCurrentLine env m)).
  { exists []. simpl. rewrite app_nil_r. auto. }
  destruct (snippet (final (ensureCurrentLine env m))) as [s|] eqn:Hs.
  2:{ exists []. simpl. rewrite app_nil_r. auto. }
  destruct (rpc_fails env _); simpl; eexists; (split; [reflexivity|]);
    right; eauto.
Qed.

Lemma jump_event_is_jump (m : Manager) s marker :
  is_jump (jump_event m s marker) = true /\
  is_enable (jump_event m s marker) = false /\
  is_write (jump_event m s marker) = false.
Proof. unfold jump_event. destruct (ph_choice s marker); simpl; auto. Qed.

Lemma jumpTo_no_enable marker env (m : Manager) :
  filter is_enable (trace (jumpTo marker env m)) = [].
Proof.
  destruct (jumpTo_trace marker env m) as (t' & -> & Ht').
  rewrite filter_app.
  rewrite (filter_none_of_kind is_enable _ reconcile_not_enable
             (ensureCurrentLine_trace_kind env m)).
  destruct Ht' as [->|(s & _ & ->)]; [reflexivity|].
  simpl. rewrite filter_cons.
  destruct (jump_event_is_jump (final (ensureCurrentLine env m)) s marker)
    as (_ & -> & _). reflexivity.
Qed.

(** X5. When [attach] returns normally on a session with a model and a
    bound document, it has queried the cursor line first, then jumped to
    the first placeholder if the model has one, and enabled snippet mode,
    as its last action, exactly when the model the session then holds has
    a placeholder; a template without placeholders engages no navigation
    at all. *)
Theorem attach_enables_with_placeholders env (m : Manager) s d :
  snippet m = Some s ->
  getDocument env (uri m) = Some d ->
  result (attach env m) = inr tt ->
  exists s',
    snippet (final (attach env m)) = Some s' /\
    let jump :=
      match firstPlaceholder s with
      | Some p =>
          trace (jumpTo p env (bound_at m (cursor_line env - 1) (doc_lineCount d)))
      | None => []
      end in
    filter is_enable jump = [] /\
    trace (attach env m) =
      CallLine :: jump ++ (if hasPlaceholder s' then [CallEnable] else []).
Proof.
  intros Hs Hd. rewrite (attach_run env m s d Hs Hd).
  destruct (rpc_fails env RpcLine); [discriminate|]. cbv zeta.
  set (m2 := bound_at m (cursor_line env - 1) (doc_lineCount d)).
  assert (Hfin : forall (m1 : Manager) s1 t,
            snippet m1 = Some s1 ->
            result (attach_finish env m1 s1 t) = inr tt ->
            snippet (final (attach_finish env m1 s1 t)) = Some s1 /\
            trace (attach_finish env m1 s1 t) =
              t ++ (if hasPlaceholder s1 then [CallEnable] else [])).
  { intros m1 s1 t Hs1. unfold attach_finish.
    destruct (hasPlaceholder s1); [destruct (rpc_fails env RpcEnable)|]; simpl;
      try discriminate; intros _; rewrite ?app_nil_r; auto. }
  destruct (firstPlaceholder s) as [p|].
  - pose proof (jumpTo_ok_model p env m2) as Hok.
    destruct (result (jumpTo p env m2)) as [e|[]] eqn:Hres; [discriminate|].
    destruct (Hok eq_refl) as [s1 Hs1]. rewrite Hs1. simpl default.
    intros Hr. destruct (Hfin _ s1 (CallLine :: trace (jumpTo p env m2)) Hs1 Hr)
      as (Hsn & Htr).
    exists s1. split; [exact Hsn|]. split; [apply jumpTo_no_enable|exact Htr].
  - intros Hr. destruct (Hfin m2 s [CallLine] Hs Hr) as (Hsn & Htr).
    exists s. split; [exact Hsn|]. split; [reflexivity|exact Htr].
Qed.

(** X6. [jumpTo] issues at most one selection call and issues it last: a
    choice display when the marker carries a choice, a range selection
    otherwise.  When it returns normally the call was issued and the
    focused index is the marker's; when it fails, by a rejected call or
    for want of a model, the focused index is the one it was. *)
Theorem jumpTo_selects marker env (m : Manager) :
  let o := jumpTo marker env m in
  (length (filter is_jump (trace o)) <= 1)%nat /\
  (result o = inr tt ->
     exists s t,
       snippet (final o) = Some s /\
       trace o = t ++ [jump_event (final o) s marker] /\
       filter is_jump t = [] /\
       currIndex (final o) = ph_index marker) /\
  (forall e, result o = inl e -> currIndex (final o) = currIndex m).
Proof.
  simpl.
  pose proof (filter_none_of_kind is_jump _ reconcile_not_jump
                (ensureCurrentLine_trace_kind env m)) as Hquiet.
  pose proof (ensureCurrentLine_keeps_position env m) as (Hcur & _).
  rewrite jumpTo_run.
  destruct (result (ensureCurrentLine env m)) as [e0|[]].
  { simpl. rewrite Hquiet. simpl. split; [lia|]. split; [discriminate|auto]. }
  destruct (snippet (final (ensureCurrentLine env m))) as [s|] eqn:Hs.
  2:{ simpl. rewrite Hquiet. simpl. split; [lia|]. split; [discriminate|auto]. }
  destruct (jump_event_is_jump (final (ensureCurrentLine env m)) s marker)
    as (Hj & _).
  destruct (rpc_fails env _); simpl; rewrite filter_app, Hquiet, filter_cons, Hj;
    simpl; (split; [lia|]); (split; [|auto; discriminate]).
  - discriminate.
  - intros _. exists s, (trace (ensureCurrentLine env m)). auto.
Qed.

Lemma jumpTo_loses_model marker env (m : Manager) d s change ph start :
  activted m = true ->
  getDocument env (uri m) = Some d ->
  snippet m = Some s ->
  hasPlaceholder s = true ->
  toString s <> getline d (startLnum m) ->
  getChangeItem (toString s) (getline d (startLnum m)) = Some change ->
  findPlaceholder s change (change_offset change) = (ph, start) ->
  (ph = None \/ exists p, ph = Some p /\ ph_index p = 0) ->
  jumpTo marker env m =
    mkOutcome (inl TypeError) (discarded m) (disable_trace env).
Proof.
  intros Hact Hd Hs Hp Hne Hc Hf Hph.
  rewrite jumpTo_run, ensureCurrentLine_run, Hd, Hs.
  apply String.eqb_neq in Hne. rewrite Hne.
  rewrite (onLineChange_rejects _ env m d s change ph start) by assumption.
  rewrite (detach_placeholders env m s) by assumption. reflexivity.
Qed.

(** X7. A jump can end the session and then fail.  When the bound line
    of an active session whose template has placeholders was edited
    outside every placeholder, or inside the final one, [jumpTo]
    reconciles first, which detaches and discards the model, and then
    rejects with a TypeError without any selection call; [jumpNext] on
    that line rejects the same way, having already moved the focused
    index. *)
Theorem jumpTo_rejects_after_detach marker env (m : Manager) d s change ph start :
  activted m = true ->
  getDocument env (uri m) = Some d ->
  snippet m = Some s ->
  hasPlaceholder s = true ->
  toString s <> getline d (startLnum m) ->
  getChangeItem (toString s) (getline d (startLnum m)) = Some change ->
  findPlaceholder s change (change_offset change) = (ph, start) ->
  (ph = None \/ exists p, ph = Some p /\ ph_index p = 0) ->
  jumpTo marker env m =
    mkOutcome (inl TypeError) (discarded m) (disable_trace env) /\
  (forall p,
     on_bound_line env m ->
     List.find (fun q => ph_index q =? next_index (currIndex m) (maxIndex s))
       (placeholders s) = Some p ->
     jumpNext env m =
       mkOutcome (inl TypeError)
         (discarded (focused m (next_index (currIndex m) (maxIndex s))))
         (CallLine :: disable_trace env)).
Proof.
  intros Hact Hd Hs Hp Hne Hc Hf Hph. split.
  - now apply (jumpTo_loses_model marker env m d s change ph start).
  - intros p Hon Hfind. rewrite jumpNext_jump_by.
    rewrite (jump_by_on_line next_index env m s Hs Hon). cbv zeta.
    rewrite Hfind.
    rewrite (jumpTo_loses_model p env (focused m _) d s change ph start);
      auto.
Qed.

(** *** Reconciliation brings the model and the line back in step *)

(** X8. [ensureCurrentLine] brings the model in step with the bound line
    or ends the session.  With a diff utility that finds a change between
    any two different strings, on a bound session with a model: either the
    call was [detach], or the session keeps its activity and its uri and
    holds a model that renders to the bound line with nothing written, or
    a single write of the model's rendering to the bound line was issued. *)
Theorem ensureCurrentLine_in_step env (m : Manager) d s :
  (forall a b, getChangeItem a b = None -> a = b) ->
  getDocument env (uri m) = Some d ->
  snippet m = Some s ->
  let o := ensureCurrentLine env m in
  let line := getline d (startLnum m) in
  o = detach env m \/
  exists s',
    snippet (final o) = Some s' /\
    activted (final o) = activted m /\
    uri (final o) = uri m /\
    ((toString s' = line /\ trace o = []) \/
     (toString s' <> line /\
      trace o = [SetLines (doc_uri d) (toString s') (startLnum m)])).
Proof.
  intros Hdiff Hd Hs. cbv zeta.
  rewrite ensureCurrentLine_run, Hd, Hs.
  destruct (String.eqb (toString s) (getline d (startLnum m))) eqn:He.
  { apply String.eqb_eq in He. right. exists s. simpl.
    split; [exact Hs|]. do 2 (split; [reflexivity|]). left. auto. }
  apply String.eqb_neq in He.
  destruct (onLineChange_cases (getline d (startLnum m)) env m)
    as [Hn | d0 Hd0 Hn | d0 s0 Hd0 Hs0 Hc | d0 s0 Hd0 Hs0
        | d0 s' Hd0 Hin | d0 s' r Hd0 Hout].
  - congruence.
  - congruence.
  - exfalso. apply He. apply Hdiff. congruence.
  - left. reflexivity.
  - right. exists s'. simpl. do 3 (split; [reflexivity|]). left. auto.
  - right. exists s'. simpl. replace d0 with d in * by congruence.
    do 3 (split; [reflexivity|]). right. auto.
Qed.

(** *** Writes *)

Lemma no_write_not_In (t : list Event) u text start :
  filter is_write t = [] -> ~ In (SetLines u text start) t.
Proof.
  intros Hq Hin.
  assert (Hw : SetLines u text start ∈ filter is_write t).
  { apply list_elem_of_filter. split; [exact I|]. now apply list_elem_of_In. }
  rewrite Hq in Hw. now apply not_elem_of_nil in Hw.
Qed.

Lemma tidy_quiet env (m : Manager) (o : Outcome Snippet unit) :
  filter is_write (trace o) = [] -> tidy_writes env m o.
Proof.
  intros Hq. split.
  - unfold count_writes. rewrite Hq. simpl. lia.
  - intros u text start Hin. exfalso.
    now apply (no_write_not_In (trace o) u text start).
Qed.

Lemma tidy_frame env (m m' : Manager) (o o' : Outcome Snippet unit) pre post :
  tidy_writes env m o ->
  uri m' = uri m ->
  filter is_write pre = [] -> filter is_write post = [] ->
  trace o' = pre ++ trace o ++ post ->
  snippet (final o') = snippet (final o) ->
  startLnum (final o') = startLnum (final o) ->
  tidy_writes env m' o'.
Proof.
  intros (Hcount & Hin) Hu Hpre Hpost Htr Hsn Hsl. split.
  - unfold count_writes in *. rewrite Htr, !filter_app, Hpre, Hpost, app_nil_r.
    exact Hcount.
  - intros u text start Hi. rewrite Htr in Hi.
    assert (Hnot : forall t, filter is_write t = [] ->
                             ~ In (SetLines u text start) t)
      by (intros t; apply no_write_not_In).
    apply in_app_or in Hi as [Hi|Hi]; [now apply Hnot in Hi|].
    apply in_app_or in Hi as [Hi|Hi]; [|now apply Hnot in Hi].
    rewrite Hu, Hsn, Hsl. now apply Hin.
Qed.

Lemma onLineChange_tidy content env (m : Manager) :
  tidy_writes env m (onLineChange content env m).
Proof.
  destruct (onLineChange_cases content env m)
    as [Hn | d0 Hd0 Hn | d0 s0 Hd0 Hs0 Hc | d0 s0 Hd0 Hs0
        | d0 s' Hd0 Hin | d0 s' r Hd0 Hout];
    try (apply tidy_quiet; reflexivity).
  - apply tidy_quiet, detach_no_write.
  - split; [exact (le_n 1)|].
    intros u text start [Heq|[]]. injection Heq as <- <- <-.
    exists d0, s'. simpl. auto.
Qed.

Lemma ensureCurrentLine_tidy env (m : Manager) :
  tidy_writes env m (ensureCurrentLine env m).
Proof.
  rewrite ensureCurrentLine_run.
  destruct (getDocument env (uri m)); [|now apply tidy_quiet].
  destruct (snippet m); [|now apply tidy_quiet].
  destruct (String.eqb _ _); [now apply tidy_quiet|].
  apply onLineChange_tidy.
Qed.

Lemma jumpTo_tidy marker env (m : Manager) :
  tidy_writes env m (jumpTo marker env m).
Proof.
  pose proof (ensureCurrentLine_tidy env m) as Ht.
  assert (Hframe : forall (o' : Outcome Snippet unit) post,
            filter is_write post = [] ->
            trace o' = trace (ensureCurrentLine env m) ++ post ->
            snippet (final o') = snippet (final (ensureCurrentLine env m)) ->
            startLnum (final o') = startLnum (final (ensureCurrentLine env m)) ->
            tidy_writes env m o').
  { intros o' post Hp Htr Hsn Hsl.
    apply (tidy_frame env m m (ensureCurrentLine env m) o' [] post); auto. }
  rewrite jumpTo_run.
  destruct (result (ensureCurrentLine env m)).
  { apply (Hframe _ []); simpl; auto using app_nil_r. }
  destruct (snippet (final (ensureCurrentLine env m))) as [s|] eqn:Hs.
  2:{ apply (Hframe _ []); simpl; auto using app_nil_r. }
  assert (Hj : filter is_write [jump_event (final (ensureCurrentLine env m)) s marker]
               = []).
  { rewrite filter_cons.
    destruct (jump_event_is_jump (final (ensureCurrentLine env m)) s marker)
      as (_ & _ & ->). reflexivity. }
  destruct (rpc_fails env _); eapply Hframe; simpl; eauto.
Qed.

Lemma jump_by_tidy target env (m : Manager) :
  tidy_writes env m (jump_by target env m).
Proof.
  destruct (snippet m) as [s|] eqn:Hs.
  2:{ rewrite jump_by_no_model by assumption. now apply tidy_quiet. }
  destruct (rpc_fails env RpcLine) eqn:Hf.
  { rewrite (jump_by_rejected target env m s) by assumption. now apply tidy_quiet. }
  destruct (decide (startLnum m = Some (cursor_line env - 1))) as [Hl|Hl].
  - rewrite (jump_by_on_line target env m s Hs (conj Hf Hl)). cbv zeta.
    destruct (List.find _ _) as [p|]; [|now apply tidy_quiet].
    apply (tidy_frame env (focused m (target (currIndex m) (maxIndex s))) m
             (jumpTo p env (focused m (target (currIndex m) (maxIndex s))))
             _ [CallLine] []); auto using jumpTo_tidy.
    simpl. now rewrite app_nil_r.
  - rewrite (jump_by_off_line target env m s Hs (conj Hf Hl)).
    apply tidy_quiet. simpl. apply detach_no_write.
Qed.

Lemma catch_log_tidy (c : M unit) env (m : Manager) :
  tidy_writes env m (c env m) -> tidy_writes env m (try_catch c onError env m).
Proof.
  intros Ht. rewrite catch_log_run.
  destruct (result (c env m)); [|exact Ht].
  apply (tidy_frame env m m (c env m) _ [] [LogError e]); auto.
Qed.

Lemma onDocumentChange_tidy e env (m : Manager) :
  tidy_writes env m (onDocumentChange e env m).
Proof.
  destruct (activted m) eqn:Hact.
  2:{ rewrite onDocumentChange_ignores by auto. now apply tidy_quiet. }
  destruct (getDocument env (uri m)) as [d|] eqn:Hd.
  2:{ rewrite onDocumentChange_ignores by auto. now apply tidy_quiet. }
  destruct (decide (uri m = Some (textDocument_uri e))) as [Hu|Hu].
  2:{ rewrite onDocumentChange_ignores by auto. now apply tidy_quiet. }
  destruct (decide (lineCount m = Some (doc_lineCount d))) as [Hl|Hl].
  2:{ rewrite (onDocumentChange_line_count e env m d) by assumption.
      apply catch_log_tidy, tidy_quiet, detach_no_write. }
  destruct (snippet m) as [s|] eqn:Hs.
  2:{ rewrite (onDocumentChange_no_model e env m d) by assumption.
      now apply tidy_quiet. }
  destruct (one_step_past d m) eqn:Ht.
  { rewrite (onDocumentChange_own_write e env m d s) by assumption.
    now apply tidy_quiet. }
  rewrite (onDocumentChange_stale e env m d s) by assumption.
  destruct (String.eqb _ _); apply catch_log_tidy.
  - apply tidy_quiet, detach_no_write.
  - apply onLineChange_tidy.
Qed.

Lemma attach_tidy env (m : Manager) :
  tidy_writes env m (attach env m).
Proof.
  destruct (snippet m) as [s|] eqn:Hs.
  2:{ rewrite attach_idle by auto. now apply tidy_quiet. }
  destruct (getDocument env (uri m)) as [d|] eqn:Hd.
  2:{ rewrite attach_idle by auto. now apply tidy_quiet. }
  rewrite (attach_run env m s d Hs Hd).
  destruct (rpc_fails env RpcLine); [now apply tidy_quiet|]. cbv zeta.
  set (m2 := bound_at m (cursor_line env - 1) (doc_lineCount d)).
  destruct (firstPlaceholder s) as [p|].
  - pose proof (jumpTo_tidy p env m2) as Ht.
    destruct (result (jumpTo p env m2)).
    + apply (tidy_frame env m2 m (jumpTo p env m2) _ [CallLine] []); auto.
      simpl. now rewrite app_nil_r.
    + unfold attach_finish.
      destruct (hasPlaceholder _); [destruct (rpc_fails env RpcEnable)|].
      * apply (tidy_frame env m2 m (jumpTo p env m2) _ [CallLine] [CallEnable]);
          auto.
      * apply (tidy_frame env m2 m (jumpTo p env m2) _ [CallLine] [CallEnable]);
          auto.
      * apply (tidy_frame env m2 m (jumpTo p env m2) _ [CallLine] []); auto.
        simpl. now rewrite app_nil_r.
  - apply tidy_quiet. unfold attach_finish.
    destruct (hasPlaceholder s); [destruct (rpc_fails env RpcEnable)|];
      reflexivity.
Qed.

(** X9. Navigation, attachment and change notifications write at most
    once per call, and only the rendering of the model the session holds
    afterwards, on the session's bound line, to the document the session
    was bound to when the call began. *)
Theorem handlers_write_the_model_once env (m : Manager) :
  tidy_writes env m (ensureCurrentLine env m) /\
  (forall marker, tidy_writes env m (jumpTo marker env m)) /\
  tidy_writes env m (jumpNext env m) /\
  tidy_writes env m (jumpPrev env m) /\
  tidy_writes env m (attach env m) /\
  (forall e, tidy_writes env m (onDocumentChange e env m)).
Proof.
  split; [apply ensureCurrentLine_tidy|].
  split; [intros; apply jumpTo_tidy|].
  split; [rewrite jumpNext_jump_by; apply jump_by_tidy|].
  split; [rewrite jumpPrev_jump_by; apply jump_by_tidy|].
  split; [apply attach_tidy|intros; apply onDocumentChange_tidy].
Qed.

(** *** Change notifications end normally *)

(** X10. [onDocumentChange] never raises on a state the manager can be
    in, and what fails under it is logged.  The detach it starts, on a
    changed line count or on an unchanged line with a stale counter,
    cannot fail on such a state, and the handler is that detach.  The
    reconciliation it starts on a changed line can fail, by a rejected
    write: the handler then returns normally in the state the
    reconciliation left, its actions being those of the reconciliation
    followed by the log of the error; when the reconciliation succeeds the
    handler is that reconciliation. *)
Theorem onDocumentChange_never_raises e env (m : Manager) :
  wf m ->
  let o := onDocumentChange e env m in
  result o = inr tt /\
  (forall d s,
     activted m = true -> getDocument env (uri m) = Some d ->
     uri m = Some (textDocument_uri e) -> snippet m = Some s ->
     (lineCount m <> Some (doc_lineCount d) \/
      (lineCount m = Some (doc_lineCount d) /\ one_step_past d m = false /\
       getline d (startLnum m) = toString s) ->
      o = detach env m) /\
     (lineCount m = Some (doc_lineCount d) ->
      one_step_past d m = false ->
      getline d (startLnum m) <> toString s ->
      let r := onLineChange (getline d (startLnum m)) env m in
      final o = final r /\
      (result r = inr tt -> o = r) /\
      (forall err, result r = inl err ->
         trace o = trace r ++ [LogError err]))).
Proof.
  intros Hwf. cbv zeta. split.
  { destruct (activted m) eqn:Hact.
    2:{ now rewrite onDocumentChange_ignores by auto. }
    destruct (getDocument env (uri m)) as [d|] eqn:Hd.
    2:{ now rewrite onDocumentChange_ignores by auto. }
    destruct (decide (uri m = Some (textDocument_uri e))) as [Hu|Hu].
    2:{ now rewrite onDocumentChange_ignores by auto. }
    destruct (decide (lineCount m = Some (doc_lineCount d))) as [Hl|Hl].
    2:{ rewrite (onDocumentChange_line_count e env m d) by assumption.
        apply catch_log_result. }
    destruct (Hwf Hact) as [s Hs].
    destruct (one_step_past d m) eqn:Ht.
    { now rewrite (onDocumentChange_own_write e env m d s). }
    rewrite (onDocumentChange_stale e env m d s) by assumption.
    destruct (String.eqb _ _); apply catch_log_result. }
  intros d s Hact Hd Hu Hs. split.
  - intros [Hl | (Hl & Ht & Hline)].
    + rewrite (onDocumentChange_line_count e env m d) by assumption.
      now rewrite catch_log_ok by now apply detach_ok.
    + rewrite (onDocumentChange_stale e env m d s) by assumption.
      rewrite Hline, String.eqb_refl.
      now rewrite catch_log_ok by now apply detach_ok.
  - intros Hl Ht Hne.
    rewrite (onDocumentChange_stale e env m d s) by assumption.
    apply String.eqb_neq in Hne. rewrite Hne.
    rewrite catch_log_final. split; [reflexivity|]. split.
    + intros Hr. now apply catch_log_ok.
    + intros err Hr. rewrite catch_log_run, Hr. reflexivity.
Qed.

(** X11. A notified edit inside a placeholder is folded into the model
    and the session goes on.  On an active, bound session with the line
    count unchanged and the counter not one step past the recorded one, an
    edit of the bound line that starts in a placeholder of non-zero index
    leaves the session active with the edited model and the document's
    counter recorded; the corrected line is written when it differs from
    the edited line, and a rejected write is logged, not raised. *)
Theorem onDocumentChange_folds_edit e env (m : Manager) d s change p start :
  activted m = true ->
  getDocument env (uri m) = Some d ->
  uri m = Some (textDocument_uri e) ->
  lineCount m = Some (doc_lineCount d) ->
  snippet m = Some s ->
  one_step_past d m = false ->
  getline d (startLnum m) <> toString s ->
  getChangeItem (toString s) (getline d (startLnum m)) = Some change ->
  findPlaceholder s change (change_offset change) = (Some p, start) ->
  ph_index p <> 0 ->
  let s' := replaceWith s p (getNewText s change p start) in
  let o := onDocumentChange e env m in
  result o = inr tt /\
  final o = reconciled m s' (doc_changedtick d) /\
  activted (final o) = true /\
  trace o =
    if String.eqb (toString s') (getline d (startLnum m)) then []
    else SetLines (doc_uri d) (toString s') (startLnum m) ::
           (if rpc_fails env RpcSetLines || negb (line_exists d (startLnum m))
            then [LogError (RpcError RpcSetLines)] else []).
Proof.
  intros Hact Hd Hu Hl Hs Ht Hne Hc Hf Hp. cbv zeta.
  rewrite (onDocumentChange_stale e env m d s) by assumption.
  apply String.eqb_neq in Hne. rewrite Hne.
  rewrite catch_log_run.
  rewrite (onLineChange_updates _ env m d s change p start) by assumption.
  cbv zeta. rewrite setLines_run.
  destruct (String.eqb _ (getline d (startLnum m))); simpl; [auto|].
  destruct (rpc_fails env RpcSetLines || negb (line_exists d (startLnum m)));
    simpl; auto.
Qed.

(** *** insertSnippet, then attach *)

Lemma jumpTo_in_step marker env (m : Manager) d s :
  getDocument env (uri m) = Some d ->
  snippet m = Some s ->
  toString s = getline d (startLnum m) ->
  jumpTo marker env m =
    if rpc_fails env (jump_rpc s marker)
    then mkOutcome (inl (RpcError (jump_rpc s marker))) m [jump_event m s marker]
    else mkOutcome (inr tt) (focused m (ph_index marker)) [jump_event m s marker].
Proof.
  intros Hd Hs Hstep.
  rewrite jumpTo_run, ensureCurrentLine_run, Hd, Hs, <- Hstep, String.eqb_refl.
  simpl. rewrite Hs. reflexivity.
Qed.

(** X12. A successful [insertSnippet] detaches the running session, binds
    to the target, holds the parsed model with the target's counter
    recorded, and issues, after the actions of the detach, one write of
    the rendered template on the given line.  It neither activates the
    session nor resets the focus: the focused index, the bound line and
    the line count are those of the previous session until [attach]. *)
Theorem insertSnippet_succeeds d line newLine env (m : Manager) s :
  wf m ->
  newSnippet newLine = Some s ->
  write_fails env d line = false ->
  let o := insertSnippet d line newLine env m in
  o = mkOutcome (inr tt) (inserted (final (detach env m)) d s)
        (trace (detach env m) ++ [SetLines (doc_uri d) (toString s) (Some line)]) /\
  activted (final o) = false /\
  currIndex (final o) = currIndex m /\
  startLnum (final o) = startLnum m /\
  lineCount (final o) = lineCount m.
Proof.
  intros Hwf Hp Hw. cbv zeta.
  rewrite (insertSnippet_detaches_first d line newLine env m (detach_ok env m Hwf)).
  cbv zeta.
  rewrite (insertSnippet_inactive_parsed d line newLine env _ s)
    by auto using detach_final_inactive.
  rewrite Hw. simpl.
  pose proof (detach_keeps_position env m) as Hk. cbv zeta in Hk.
  pose proof (detach_final_inactive env m). tauto.
Qed.

Lemma deliver_all_fields env t :
  cursor_line (deliver_all env t) = cursor_line env /\
  rpc_fails (deliver_all env t) = rpc_fails env.
Proof.
  unfold deliver_all. revert env.
  induction t as [|ev t IH]; intros env; [auto|]. simpl.
  destruct (IH (deliver env ev)) as (-> & ->).
  destruct ev; simpl; auto.
  destruct (documents env !! target); auto.
Qed.

Lemma deliver_all_quiet env t :
  filter is_write t = [] -> deliver_all env t = env.
Proof.
  unfold deliver_all. revert env.
  induction t as [|ev t IH]; intros env Hq; [reflexivity|]. simpl.
  rewrite filter_cons in Hq. destruct ev; simpl in *;
    try (now apply IH). discriminate.
Qed.

Lemma deliver_all_app env t1 t2 :
  deliver_all env (t1 ++ t2) = deliver_all (deliver_all env t1) t2.
Proof. unfold deliver_all. apply foldl_app. Qed.

Lemma applyWrite_getline d text k :
  line_exists d (Some k) = true ->
  getline (applyWrite d text (Some k)) (Some k) = text.
Proof.
  intros Hex. unfold applyWrite. rewrite Hex. unfold getline. simpl.
  unfold line_exists, doc_lineCount in Hex.
  apply andb_true_iff in Hex as [H0 Hk]. rewrite H0.
  apply Z.leb_le in H0. apply Z.ltb_lt in Hk.
  rewrite list_lookup_insert_eq by lia. reflexivity.
Qed.

(** X13. Insertion followed by attachment starts a session.  When the
    template parses, the write on the given line succeeds and is carried
    out by the document adapter, the cursor is on that line and the editor
    rejects no call, [attach] returns normally with the session active on
    the target document, bound to that line, holding the parsed model,
    focused on the first placeholder when there is one, and it writes
    nothing more. *)
Theorem insert_then_attach d line newLine env (m : Manager) s :
  wf m ->
  documents env !! doc_uri d = Some d ->
  newSnippet newLine = Some s ->
  write_fails env d line = false ->
  cursor_line env - 1 = line ->
  rpc_fails env RpcLine = false ->
  rpc_fails env RpcEnable = false ->
  (forall p, firstPlaceholder s = Some p -> rpc_fails env (jump_rpc s p) = false) ->
  let o1 := insertSnippet d line newLine env m in
  let o2 := attach (deliver_all env (trace o1)) (final o1) in
  result o2 = inr tt /\
  final o2 =
    {| snippet := Some s; activted := true; startLnum := Some line;
       lineCount := Some (doc_lineCount d); uri := Some (doc_uri d);
       currIndex := match firstPlaceholder s with
                    | Some p => ph_index p
                    | None => currIndex m
                    end;
       changedtick := Some (doc_changedtick d) |} /\
  filter is_write (trace o2) = [].
Proof.
  intros Hwf Hdoc Hp Hw Hcur Hline Hen Hjump. cbv zeta.
  destruct (insertSnippet_succeeds d line newLine env m s Hwf Hp Hw)
    as (Hins & _). cbv zeta in Hins. rewrite Hins. simpl final. simpl trace.
  rewrite deliver_all_app, (deliver_all_quiet env _ (detach_no_write env m)).
  set (env' := deliver_all env [SetLines (doc_uri d) (toString s) (Some line)]).
  set (d' := applyWrite d (toString s) (Some line)).
  assert (Hex : line_exists d (Some line) = true).
  { unfold write_fails in Hw. apply orb_false_iff in Hw as [_ Hw].
    now apply negb_false_iff in Hw. }
  assert (Hd' : documents env' !! doc_uri d = Some d')
    by now apply deliver_write.
  destruct (deliver_all_fields env [SetLines (doc_uri d) (toString s) (Some line)])
    as (Hc' & Hf'). fold env' in Hc', Hf'.
  pose proof (detach_keeps_position env m) as Hk. cbv zeta in Hk.
  destruct Hk as (Hci & _).
  set (m0 := final (detach env m)) in *.
  rewrite (attach_run env' (inserted m0 d s) s d' eq_refl Hd').
  rewrite Hf', Hline, Hc', Hcur. cbv zeta.
  assert (Hlc : doc_lineCount d' = doc_lineCount d)
    by apply applyWrite_line_count.
  rewrite !Hlc.
  destruct (firstPlaceholder s) as [p|] eqn:Hfirst.
  - assert (Hstep : toString s =
                    getline d' (startLnum (bound_at (inserted m0 d s) line
                                             (doc_lineCount d)))).
    { unfold d'. cbn [startLnum bound_at]. now rewrite applyWrite_getline. }
    rewrite (jumpTo_in_step p env'
               (bound_at (inserted m0 d s) line (doc_lineCount d)) d' s
               Hd' eq_refl Hstep).
    rewrite Hf', (Hjump p eq_refl). unfold attach_finish. simpl.
    destruct (jump_event_is_jump
                (bound_at (inserted m0 d s) line (doc_lineCount d)) s p)
      as (_ & _ & Hnw).
    destruct (hasPlaceholder s); rewrite ?Hf', ?Hen; simpl;
      rewrite ?filter_cons, ?Hnw; simpl; auto.
  - unfold attach_finish.
    destruct (hasPlaceholder s); rewrite ?Hf', ?Hen;
      unfold activated, bound_at, inserted; simpl; rewrite Hci; auto.
Qed.

(** *** Closed documents and sessions that ended *)

(** X14. The handler for closed documents never raises.  Closing the
    bound document does what [detach] does: when the detach returns
    normally the handler is that detach, and when the detach fails the
    handler returns normally in the state the detach left, its actions
    being those of the detach followed by the log of the error.  Closing
    any other document changes nothing and issues nothing. *)
Theorem closing_detaches_bound_session closed env (m : Manager) :
  let o := onDidCloseTextDocument closed env m in
  result o = inr tt /\
  (Some closed <> uri m -> o = mkOutcome (inr tt) m []) /\
  (Some closed = uri m ->
     final o = final (detach env m) /\ activted (final o) = false /\
     filter is_write (trace o) = [] /\ filter is_jump (trace o) = [] /\
     (result (detach env m) = inr tt -> o = detach env m) /\
     (forall err, result (detach env m) = inl err ->
        trace o = trace (detach env m) ++ [LogError err])).
Proof.
  cbv zeta. rewrite onDidCloseTextDocument_run.
  destruct (decide (Some closed = uri m)) as [Hu|Hu].
  - rewrite (bool_decide_eq_true_2 _ Hu).
    split; [apply catch_log_result|]. split; [tauto|]. intros _.
    rewrite catch_log_final. split; [reflexivity|].
    split; [apply detach_final_inactive|].
    split; [|split; [|split]].
    + rewrite catch_log_run.
      destruct (result (detach env m)); simpl; rewrite ?filter_app;
        rewrite detach_no_write; auto.
    + rewrite catch_log_run.
      destruct (result (detach env m)); simpl; rewrite ?filter_app;
        rewrite detach_no_jump; auto.
    + intros Hr. now apply catch_log_ok.
    + intros err Hr. rewrite catch_log_run, Hr. reflexivity.
  - rewrite (bool_decide_eq_false_2 _ Hu). simpl. tauto.
Qed.

(** X15. A session that was detached is inert: a further [detach] and
    every change notification leave it as it is and issue nothing,
    whatever the environment. *)
Theorem detached_session_is_inert env env' e (m : Manager) :
  let m' := final (detach env m) in
  detach env' m' = mkOutcome (inr tt) m' [] /\
  onDocumentChange e env' m' = mkOutcome (inr tt) m' [].
Proof.
  cbv zeta. pose proof (detach_final_inactive env m) as Hin.
  split; [now apply detach_inactive | apply onDocumentChange_ignores; auto].
Qed.

(** X16. Without a model, before the first [insertSnippet] or after a
    [detach] that discarded it, navigation fails and does nothing:
    [jumpNext], [jumpPrev] and [jumpTo] reject with a TypeError before any
    call to the editor and leave the state as it is, and [attach] returns
    without doing anything. *)
Theorem navigation_needs_a_model env (m : Manager) :
  snippet m = None ->
  jumpNext env m = mkOutcome (inl TypeError) m [] /\
  jumpPrev env m = mkOutcome (inl TypeError) m [] /\
  (forall marker, jumpTo marker env m = mkOutcome (inl TypeError) m []) /\
  attach env m = mkOutcome (inr tt) m [].
Proof.
  intros Hs. rewrite jumpNext_jump_by, jumpPrev_jump_by.
  rewrite !jump_by_no_model by assumption.
  repeat split; [|apply attach_idle; auto].
  intros marker. rewrite jumpTo_run, ensureCurrentLine_run, Hs.
  destruct (getDocument env (uri m)); simpl; [reflexivity|].
  rewrite Hs. reflexivity.
Qed.

(** X17. A notified edit outside every placeholder ends the session and
    writes nothing.  On an active, bound session with the line count
    unchanged and the counter not one step past the recorded one, an edit
    of the bound line that starts in no placeholder, or in the final one,
    makes [onDocumentChange] do exactly what [detach] does. *)
Theorem onDocumentChange_rejects_edit e env (m : Manager) d s change ph start :
  activted m = true ->
  getDocument env (uri m) = Some d ->
  uri m = Some (textDocument_uri e) ->
  lineCount m = Some (doc_lineCount d) ->
  snippet m = Some s ->
  one_step_past d m = false ->
  getline d (startLnum m) <> toString s ->
  getChangeItem (toString s) (getline d (startLnum m)) = Some change ->
  findPlaceholder s change (change_offset change) = (ph, start) ->
  (ph = None \/ exists p, ph = Some p /\ ph_index p = 0) ->
  let o := onDocumentChange e env m in
  o = detach env m /\
  result o = inr tt /\
  activted (final o) = false /\
  uri (final o) = Some "" /\
  filter is_write (trace o) = [].
Proof.
  intros Hact Hd Hu Hl Hs Ht Hne Hc Hf Hph. cbv zeta.
  rewrite (onDocumentChange_stale e env m d s) by assumption.
  apply String.eqb_neq in Hne. rewrite Hne.
  rewrite (catch_log_ok (onLineChange _) env m);
    rewrite (onLineChange_rejects _ env m d s change ph start) by assumption;
    try now apply (detach_ok_model env m s).
  split; [reflexivity|]. split; [now apply (detach_ok_model env m s)|].
  split; [apply detach_final_inactive|]. split; [|apply detach_no_write].
  destruct (hasPlaceholder s) eqn:Hp.
  - now rewrite (detach_placeholders env m s).
  - now rewrite (detach_plain env m s).
Qed.

(** X18. A jump on a quiet session.  When the session has its model, the
    bound line reads as the model renders, the cursor is on the bound line
    and the editor rejects no call, [jumpNext] and [jumpPrev] issue the
    line query and one selection of the first placeholder that has the
    wrapped-around index, set the focused index to it and change nothing
    else. *)
Theorem jump_on_quiet_session env (m : Manager) d s :
  snippet m = Some s ->
  getDocument env (uri m) = Some d ->
  toString s = getline d (startLnum m) ->
  on_bound_line env m ->
  (forall p, rpc_fails env (jump_rpc s p) = false) ->
  (forall p,
     List.find (fun q => ph_index q =? next_index (currIndex m) (maxIndex s))
       (placeholders s) = Some p ->
     jumpNext env m =
       mkOutcome (inr tt) (focused m (next_index (currIndex m) (maxIndex s)))
         [CallLine; jump_event m s p]) /\
  (forall p,
     List.find (fun q => ph_index q =? prev_index (currIndex m) (maxIndex s))
       (placeholders s) = Some p ->
     jumpPrev env m =
       mkOutcome (inr tt) (focused m (prev_index (currIndex m) (maxIndex s)))
         [CallLine; jump_event m s p]).
Proof.
  intros Hs Hd Hstep Hon Hrpc.
  assert (Hgen : forall target p,
            List.find (fun q => ph_index q =? target (currIndex m) (maxIndex s))
              (placeholders s) = Some p ->
            jump_by target env m =
              mkOutcome (inr tt) (focused m (target (currIndex m) (maxIndex s)))
                [CallLine; jump_event m s p]).
  { intros target p Hfind.
    rewrite (jump_by_on_line target env m s Hs Hon). cbv zeta. rewrite Hfind.
    rewrite (jumpTo_in_step p env (focused m _) d s) by assumption.
    rewrite Hrpc. simpl.
    apply List.find_some in Hfind as [_ Hp]. apply Z.eqb_eq in Hp.
    unfold focused. simpl. rewrite Hp. reflexivity. }
  rewrite jumpNext_jump_by, jumpPrev_jump_by.
  split; intros p Hfind; now apply Hgen.
Qed.

End Properties.

(** ** The manager on the template model: the scenario of the specification *)

Section Scenario.

Import Flat.

Example demo_template_parses : newSnippet demo_template = Some demo_snippet.
Proof. reflexivity. Qed.

Example demo_template_renders : toString demo_snippet = "foo(bar, baz)"%string.
Proof. reflexivity. Qed.

Example unterminated_template_is_text :
  newSnippet unterminated_template = Some [Text "foo("; Text "${1:bar"].
Proof. reflexivity. Qed.

Example far_template_parses :
  newSnippet "${9007199254740994:x}" = Some far_snippet.
Proof. reflexivity. Qed.

(** Inserting the template on line 3 writes the rendered text there. *)
Example demo_insert :
  insertSnippet (demo_doc "" 7) 3 demo_template (demo_env "" 7 4 no_failure) initial =
    mkOutcome (inr tt)
      {| snippet := Some demo_snippet; activted := false; startLnum := None;
         lineCount := None; uri := Some demo_uri; currIndex := -1;
         changedtick := Some 7 |}
      [SetLines demo_uri "foo(bar, baz)" (Some 3)].
Proof. vm_compute. reflexivity. Qed.

(** Attaching after the write was carried out selects [bar] and yields
    the session used below. *)
Example demo_attach :
  let env := demo_env "" 7 4 no_failure in
  let o := insertSnippet (demo_doc "" 7) 3 demo_template env initial in
  attach (deliver_all env (trace o)) (final o) =
    mkOutcome (inr tt) (demo_session 7)
      [CallLine; CallRangeSelect (Some 4) 5 3; CallEnable].
Proof. vm_compute. reflexivity. Qed.

(** [jumpNext] then selects [baz]. *)
Example demo_jumpNext :
  jumpNext quiet_env (demo_session 7) =
    mkOutcome (inr tt) (demo_focus 2) [CallLine; CallRangeSelect (Some 4) 10 3].
Proof. vm_compute. reflexivity. Qed.

(** Changing [bar] to [qux] updates the model; the line already reads as
    the model renders, so nothing is written. *)
Example demo_edit :
  snippet (final (onDocumentChange demo_event
                    (demo_env "foo(qux, baz)" 9 4 no_failure) (demo_session 7))) =
    Some [Text "foo("; Hole 1 "qux" None; Text ", "; Hole 2 "baz" None;
          Text ")"; Hole 0 "" None].
Proof. vm_compute. reflexivity. Qed.

(** An edit in the first of two mirrors rewrites the line. *)
Example mirror_edit :
  onLineChange "abc-ab" (demo_env "abc-ab" 8 4 no_failure) (mirror_session 7) =
    mkOutcome (inr tt)
      {| snippet := Some [Hole 1 "abc" None; Text "-"; Hole 1 "abc" None;
                          Hole 0 "" None];
         activted := true; startLnum := Some 3; lineCount := Some 5;
         uri := Some demo_uri; currIndex := 1; changedtick := Some 8 |}
      [SetLines demo_uri "abc-abc" (Some 3)].
Proof. vm_compute. reflexivity. Qed.

(** An edit before the first placeholder ends the session. *)
Example demo_edit_outside :
  onLineChange "xfoo(bar, baz)" (demo_env "xfoo(bar, baz)" 9 4 no_failure)
    (demo_session 7) =
    mkOutcome (inr tt) (discarded (demo_session 7)) [CallDisable].
Proof. vm_compute. reflexivity. Qed.

End Scenario.

(** ** The theorems at concrete sessions *)

Section Instances.

Import Flat.

Lemma own_write_is_ignored_witness :
  let env := demo_env "abc-ab" 8 4 no_failure in
  let m := mirror_session 7 in
  let o := onLineChange "abc-ab" env m in
  let env' := deliver_all env (trace o) in
  count_writes (trace o) = 1%nat /\
  onDocumentChange demo_event env' (final o) = mkOutcome (inr tt) (final o) [] /\
  count_writes (trace o ++ trace (onDocumentChange demo_event env' (final o))) = 1%nat.
Proof.
  intros env m o env'.
  split; [vm_compute; reflexivity|].
  apply (own_write_is_ignored "abc-ab" env m demo_uri (demo_doc "abc-ab" 8)
           demo_event).
  - apply (wf_of_model m mirror_snippet). reflexivity.
  - reflexivity.
  - reflexivity.
  - vm_compute. reflexivity.
  - reflexivity.
  - reflexivity.
  - reflexivity.
  - vm_compute. reflexivity.
  - vm_compute. reflexivity.
Defined.

Lemma onLineChange_outside_detaches_witness :
  let env := demo_env "foo(bar, baz)x" 9 4 no_failure in
  let o := onLineChange "foo(bar, baz)x" env (demo_session 7) in
  o = detach env (demo_session 7) /\
  result o = inr tt /\
  activted (final o) = false /\
  (snippet (final o) = Some demo_snippet \/ snippet (final o) = None) /\
  changedtick (final o) = Some 7 /\
  filter is_write (trace o) = [].
Proof.
  apply (onLineChange_outside_detaches "foo(bar, baz)x"
           (demo_env "foo(bar, baz)x" 9 4 no_failure) (demo_session 7)
           (demo_doc "foo(bar, baz)x" 9) demo_snippet
           {| change_offset := 13; change_removed := 0; change_added := "x" |}
           (Some {| pos := 5; index := 0 |}) 13).
  - vm_compute. reflexivity.
  - reflexivity.
  - vm_compute. reflexivity.
  - vm_compute. reflexivity.
  - right. eexists. split; reflexivity.
Defined.

Lemma onLineChange_reconciles_witness :
  let env := demo_env "abc-ab" 8 4 no_failure in
  let o := onLineChange "abc-ab" env (mirror_session 7) in
  let s' := [Hole 1 "abc" None; Text "-"; Hole 1 "abc" None; Hole 0 "" None] in
  final o = reconciled (mirror_session 7) s' 8 /\
  trace o = [SetLines demo_uri "abc-abc" (Some 3)].
Proof.
  intros env o s'.
  destruct (onLineChange_reconciles "abc-ab" env (mirror_session 7)
              (demo_doc "abc-ab" 8) mirror_snippet
              {| change_offset := 2; change_removed := 0; change_added := "c" |}
              {| pos := 0; index := 1 |} 0) as (Hfinal & _ & Hwrite & _).
  - vm_compute. reflexivity.
  - reflexivity.
  - vm_compute. reflexivity.
  - vm_compute. reflexivity.
  - simpl. lia.
  - split; [exact Hfinal|]. apply Hwrite. vm_compute. discriminate.
Defined.

Lemma navigation_is_cyclic_witness :
  let step_next m := final (jumpNext quiet_env m) in
  let step_prev m := final (jumpPrev quiet_env m) in
  currIndex (step_next (step_next (step_next (demo_focus 0)))) = 0 /\
  currIndex (step_prev (step_prev (step_prev (demo_focus 0)))) = 0.
Proof.
  intros step_next step_prev.
  apply (navigation_is_cyclic 2 (demo_focus 0)
           (step_next (step_next (step_next (demo_focus 0))))
           (step_prev (step_prev (step_prev (demo_focus 0))))).
  - unfold two53. lia.
  - reflexivity.
  - apply (jumps_step jumpNext 2 2 quiet_env (demo_focus 0) demo_snippet);
      [reflexivity | reflexivity | split; reflexivity |].
    apply (jumps_step jumpNext 2 1 quiet_env _ demo_snippet);
      [reflexivity | reflexivity | split; reflexivity |].
    apply (jumps_step jumpNext 2 0 quiet_env _ demo_snippet);
      [reflexivity | reflexivity | split; reflexivity |].
    apply jumps_done.
  - apply (jumps_step jumpPrev 2 2 quiet_env (demo_focus 0) demo_snippet);
      [reflexivity | reflexivity | split; reflexivity |].
    apply (jumps_step jumpPrev 2 1 quiet_env _ demo_snippet);
      [reflexivity | reflexivity | split; reflexivity |].
    apply (jumps_step jumpPrev 2 0 quiet_env _ demo_snippet);
      [reflexivity | reflexivity | split; reflexivity |].
    apply jumps_done.
Defined.

Lemma onDocumentChange_guards_witness :
  let grown := {| documents := {[ demo_uri :=
                     {| doc_uri := demo_uri;
                        doc_lines := ["a"; "b"; "c"; "foo(bar, baz)"; "e"; "f"];
                        doc_changedtick := 9 |} ]};
                  cursor_line := 4; rpc_fails := no_failure |} in
  onDocumentChange demo_event grown (demo_session 7) =
    detach grown (demo_session 7) /\
  activted (final (detach grown (demo_session 7))) = false.
Proof.
  intros grown.
  destruct (onDocumentChange_guards demo_event grown (demo_session 7))
    as (_ & Hbound).
  - apply (wf_of_model _ demo_snippet). reflexivity.
  - destruct (Hbound {| doc_uri := demo_uri;
                        doc_lines := ["a"; "b"; "c"; "foo(bar, baz)"; "e"; "f"];
                        doc_changedtick := 9 |}) as (Hcount & _).
    + reflexivity.
    + vm_compute. reflexivity.
    + reflexivity.
    + destruct Hcount as (Heq & _ & Hoff).
      * vm_compute. discriminate.
      * split; assumption.
Defined.

Lemma insertSnippet_never_raises_witness :
  let env := demo_env "foo(bar, baz)" 8 4 no_failure in
  let o := insertSnippet (demo_doc "foo(bar, baz)" 8) 9 demo_template env
             (demo_session 7) in
  result o = inr tt /\ activted (final o) = false /\
  trace o = [CallDisable; SetLines demo_uri "foo(bar, baz)" (Some 9);
             LogError (RpcError RpcSetLines)].
Proof.
  intros env o.
  destruct (insertSnippet_never_raises (demo_doc "foo(bar, baz)" 8) 9
              demo_template env (demo_session 7))
    as (Hseq & Hres & Hoff & _ & Hwrite).
  - apply (wf_of_model _ demo_snippet). reflexivity.
  - split; [exact Hres|]. split; [exact Hoff|].
    subst o. rewrite Hseq. cbn [trace].
    rewrite (Hwrite demo_snippet) by reflexivity.
    vm_compute. reflexivity.
Defined.

Lemma navigation_guards_witness :
  let env := demo_env "foo(bar, baz)" 8 9 no_failure in
  jumpNext env (demo_session 7) =
    mkOutcome (inr tt) (discarded (demo_session 7)) [CallLine; CallDisable] /\
  currIndex (final (detach env (demo_session 7))) = 1.
Proof.
  intros env.
  destruct (navigation_guards env (demo_session 7) demo_snippet) as (Hoff & _).
  - reflexivity.
  - destruct Hoff as (Hnext & _ & Hidx & _).
    + split; [reflexivity|]. vm_compute. discriminate.
    + split; [|exact Hidx]. rewrite Hnext. vm_compute. reflexivity.
Defined.

Lemma detach_always_succeeds_witness :
  let env := demo_env "foo(bar, baz)" 8 4 disable_fails in
  result (detach env (demo_session 7)) = inr tt /\
  snippet (final (detach env (demo_session 7))) = None /\
  trace (detach env (demo_session 7)) =
    [CallDisable; LogError (RpcError RpcDisable)].
Proof.
  intros env.
  destruct (detach_always_succeeds env (demo_session 7)) as (Hres & _ & Hactive).
  - apply (wf_of_model _ demo_snippet). reflexivity.
  - split; [exact Hres|].
    destruct (Hactive eq_refl) as (_ & _ & Hmodel).
    destruct (Hmodel demo_snippet eq_refl) as (_ & Hdisable).
    apply Hdisable. reflexivity.
Defined.

Lemma counter_recorded_without_write_witness :
  let env := demo_env "foo(qux, baz)" 9 4 no_failure in
  let env' := demo_env "anything" 10 4 no_failure in
  let o := onLineChange "foo(qux, baz)" env (demo_session 7) in
  result o = inr tt /\
  trace o = [] /\
  changedtick (final o) = Some 9 /\
  onDocumentChange demo_event env' (final o) = mkOutcome (inr tt) (final o) [].
Proof.
  apply (counter_recorded_without_write "foo(qux, baz)"
           (demo_env "foo(qux, baz)" 9 4 no_failure) (demo_session 7)
           (demo_doc "foo(qux, baz)" 9) demo_snippet
           {| change_offset := 4; change_removed := 3; change_added := "qux" |}
           {| pos := 1; index := 1 |} 4
           (demo_env "anything" 10 4 no_failure) demo_event
           (demo_doc "anything" 10)).
  - apply (wf_of_model _ demo_snippet). reflexivity.
  - reflexivity.
  - vm_compute. reflexivity.
  - reflexivity.
  - vm_compute. reflexivity.
  - vm_compute. reflexivity.
  - simpl. lia.
  - vm_compute. reflexivity.
  - vm_compute. reflexivity.
  - reflexivity.
  - reflexivity.
  - reflexivity.
Defined.

Lemma insertSnippet_binds_before_failing_witness :
  let d := demo_doc "foo(bar, baz)" 8 in
  let o := insertSnippet d 9 demo_template quiet_env (demo_session 7) in
  uri (final o) = Some demo_uri /\
  activted (final o) = false /\
  getDocument quiet_env (uri (final o)) = Some d.
Proof.
  intros d o.
  destruct (insertSnippet_binds_before_failing d 9 demo_template quiet_env
              (demo_session 7)) as (Huri & Hoff & Hdoc & _).
  - apply (wf_of_model _ demo_snippet). reflexivity.
  - vm_compute. reflexivity.
  - split; [exact Huri|]. split; [exact Hoff|exact Hdoc].
Defined.

Lemma flat_diff_finds_changes a b : getChangeItem a b = None -> a = b.
Proof.
  unfold getChangeItem. destruct (String.eqb a b) eqn:He; [|discriminate].
  intros _. now apply String.eqb_eq.
Qed.

Lemma reachable_wf_witness :
  wf (final (attach quiet_env
               (final (insertSnippet (demo_doc "" 7) 3 demo_template
                         (demo_env "" 7 4 no_failure) initial)))).
Proof.
  apply reachable_wf.
  apply reach_attach, reach_insertSnippet, reach_initial.
Defined.

Lemma reachable_defined_witness :
  let m := final (attach quiet_env
                    (final (insertSnippet (demo_doc "" 7) 3 demo_template
                              (demo_env "" 7 4 no_failure) initial))) in
  (activted m = true ->
     is_Some (startLnum m) /\ is_Some (lineCount m) /\ is_Some (uri m)) /\
  (is_Some (snippet m) -> is_Some (changedtick m)).
Proof.
  apply reachable_defined.
  apply reach_attach, reach_insertSnippet, reach_initial.
Defined.

Lemma only_attach_activates_witness :
  activted (final (jumpNext quiet_env demo_inserted)) = false /\
  activted (final (insertSnippet (demo_doc "" 7) 3 demo_template quiet_env
                     demo_inserted)) = false.
Proof.
  destruct (only_attach_activates quiet_env demo_inserted eq_refl)
    as (_ & Hinsert & _ & Hnext & _).
  split; [exact Hnext | apply Hinsert].
Defined.

Lemma attach_activation_witness :
  let o := attach quiet_env demo_inserted in
  activted (final o) = true /\
  startLnum (final o) = Some 3 /\
  is_Some (snippet (final o)).
Proof.
  intros o.
  destruct (attach_activation quiet_env demo_inserted eq_refl) as (Hiff & Hbound).
  assert (Hon : activted (final o) = true).
  { apply Hiff. split; [vm_compute; reflexivity|].
    split; [eexists; reflexivity | eexists; vm_compute; reflexivity]. }
  destruct (Hbound Hon) as (Hline & Hmodel & _).
  split; [exact Hon|]. split; [exact Hline | exact Hmodel].
Defined.

Lemma attach_enables_with_placeholders_witness :
  trace (attach quiet_env demo_inserted) =
    [CallLine; CallRangeSelect (Some 4) 5 3; CallEnable].
Proof.
  destruct (attach_enables_with_placeholders quiet_env demo_inserted
              demo_snippet (demo_doc "foo(bar, baz)" 8))
    as (s' & Hmodel & _ & Htrace).
  - reflexivity.
  - vm_compute. reflexivity.
  - vm_compute. reflexivity.
  - rewrite Htrace. vm_compute in Hmodel. injection Hmodel as <-.
    vm_compute. reflexivity.
Defined.

Lemma jumpTo_rejects_after_detach_witness :
  jumpTo {| pos := 3; index := 2 |} edited_outside_env (demo_session 7) =
    mkOutcome (inl TypeError) (discarded (demo_session 7))
      (disable_trace edited_outside_env).
Proof.
  apply (jumpTo_rejects_after_detach {| pos := 3; index := 2 |}
           edited_outside_env (demo_session 7)
           (demo_doc "xfoo(bar, baz)" 9) demo_snippet
           {| change_offset := 0; change_removed := 0; change_added := "x" |}
           None 0).
  - reflexivity.
  - vm_compute. reflexivity.
  - reflexivity.
  - reflexivity.
  - vm_compute. discriminate.
  - vm_compute. reflexivity.
  - vm_compute. reflexivity.
  - left. reflexivity.
Defined.

Lemma ensureCurrentLine_in_step_witness :
  let env := demo_env "foo(qux, baz)" 9 4 no_failure in
  let o := ensureCurrentLine env (demo_session 7) in
  o = detach env (demo_session 7) \/
  exists s',
    snippet (final o) = Some s' /\
    activted (final o) = true /\
    uri (final o) = Some demo_uri /\
    ((toString s' = "foo(qux, baz)"%string /\ trace o = []) \/
     (toString s' <> "foo(qux, baz)"%string /\
      trace o = [SetLines demo_uri (toString s') (Some 3)])).
Proof.
  assert (Hdoc : getDocument (demo_env "foo(qux, baz)" 9 4 no_failure)
                   (uri (demo_session 7)) = Some (demo_doc "foo(qux, baz)" 9))
    by (vm_compute; reflexivity).
  exact (ensureCurrentLine_in_step (demo_env "foo(qux, baz)" 9 4 no_failure)
           (demo_session 7) (demo_doc "foo(qux, baz)" 9) demo_snippet
           flat_diff_finds_changes Hdoc eq_refl).
Defined.

Lemma onDocumentChange_never_raises_witness :
  let env := demo_env "abc-ab" 8 4 write_rejected in
  let o := onDocumentChange demo_event env (mirror_session 5) in
  result o = inr tt /\
  trace o = [SetLines demo_uri "abc-abc" (Some 3);
             LogError (RpcError RpcSetLines)].
Proof.
  intros env o.
  destruct (onDocumentChange_never_raises demo_event env (mirror_session 5))
    as (Hres & Hcases).
  - apply (wf_of_model _ mirror_snippet). reflexivity.
  - split; [exact Hres|].
    destruct (Hcases (demo_doc "abc-ab" 8) mirror_snippet) as (_ & Hreconcile).
    + reflexivity.
    + vm_compute. reflexivity.
    + reflexivity.
    + reflexivity.
    + destruct Hreconcile as (_ & _ & Hlog).
      * reflexivity.
      * reflexivity.
      * vm_compute. discriminate.
      * subst o. rewrite (Hlog (RpcError RpcSetLines)) by (vm_compute; reflexivity).
        vm_compute. reflexivity.
Defined.

Lemma onDocumentChange_folds_edit_witness :
  let env := demo_env "abc-ab" 8 4 no_failure in
  let o := onDocumentChange demo_event env (mirror_session 5) in
  result o = inr tt /\
  final o = reconciled (mirror_session 5)
              [Hole 1 "abc" None; Text "-"; Hole 1 "abc" None; Hole 0 "" None] 8 /\
  activted (final o) = true /\
  trace o = [SetLines demo_uri "abc-abc" (Some 3)].
Proof.
  refine (onDocumentChange_folds_edit demo_event
           (demo_env "abc-ab" 8 4 no_failure) (mirror_session 5)
           (demo_doc "abc-ab" 8) mirror_snippet
           {| change_offset := 2; change_removed := 0; change_added := "c" |}
           {| pos := 0; index := 1 |} 0 _ _ _ _ _ _ _ _ _ _).
  - reflexivity.
  - vm_compute. reflexivity.
  - reflexivity.
  - reflexivity.
  - reflexivity.
  - reflexivity.
  - vm_compute. discriminate.
  - vm_compute. reflexivity.
  - vm_compute. reflexivity.
  - simpl. lia.
Defined.

Lemma insertSnippet_succeeds_witness :
  let env := demo_env "" 7 4 no_failure in
  let o := insertSnippet (demo_doc "" 7) 3 demo_template env (demo_session 5) in
  o = mkOutcome (inr tt)
        (inserted (final (detach env (demo_session 5))) (demo_doc "" 7) demo_snippet)
        (trace (detach env (demo_session 5)) ++
           [SetLines demo_uri "foo(bar, baz)" (Some 3)]) /\
  activted (final o) = false /\
  currIndex (final o) = 1 /\
  startLnum (final o) = Some 3 /\
  lineCount (final o) = Some 5.
Proof.
  refine (insertSnippet_succeeds (demo_doc "" 7) 3 demo_template
            (demo_env "" 7 4 no_failure) (demo_session 5) demo_snippet _ _ _).
  - apply (wf_of_model _ demo_snippet). reflexivity.
  - reflexivity.
  - reflexivity.
Defined.

Lemma insert_then_attach_witness :
  let env := demo_env "" 7 4 no_failure in
  let o1 := insertSnippet (demo_doc "" 7) 3 demo_template env initial in
  let o2 := attach (deliver_all env (trace o1)) (final o1) in
  result o2 = inr tt /\
  final o2 = demo_session 7 /\
  filter is_write (trace o2) = [].
Proof.
  refine (insert_then_attach (demo_doc "" 7) 3 demo_template
            (demo_env "" 7 4 no_failure) initial demo_snippet _ _ _ _ _ _ _ _).
  - apply wf_initial.
  - vm_compute. reflexivity.
  - reflexivity.
  - reflexivity.
  - reflexivity.
  - reflexivity.
  - reflexivity.
  - intros p _. reflexivity.
Defined.

Lemma navigation_needs_a_model_witness :
  let m := final (detach quiet_env (demo_session 7)) in
  jumpNext quiet_env m = mkOutcome (inl TypeError) m [] /\
  jumpPrev quiet_env m = mkOutcome (inl TypeError) m [] /\
  (forall marker, jumpTo marker quiet_env m = mkOutcome (inl TypeError) m []) /\
  attach quiet_env m = mkOutcome (inr tt) m [].
Proof.
  refine (navigation_needs_a_model quiet_env
            (final (detach quiet_env (demo_session 7))) _).
  vm_compute. reflexivity.
Defined.

Lemma onDocumentChange_rejects_edit_witness :
  let o := onDocumentChange demo_event edited_outside_env (demo_session 7) in
  o = detach edited_outside_env (demo_session 7) /\
  result o = inr tt /\
  activted (final o) = false /\
  uri (final o) = Some ""%string /\
  filter is_write (trace o) = [].
Proof.
  refine (onDocumentChange_rejects_edit demo_event edited_outside_env
            (demo_session 7) (demo_doc "xfoo(bar, baz)" 9) demo_snippet
            {| change_offset := 0; change_removed := 0; change_added := "x" |}
            None 0 _ _ _ _ _ _ _ _ _ _).
  - reflexivity.
  - vm_compute. reflexivity.
  - reflexivity.
  - reflexivity.
  - reflexivity.
  - reflexivity.
  - vm_compute. discriminate.
  - vm_compute. reflexivity.
  - vm_compute. reflexivity.
  - left. reflexivity.
Defined.

Lemma jump_on_quiet_session_witness :
  jumpNext quiet_env (demo_session 7) =
    mkOutcome (inr tt) (demo_focus 2) [CallLine; CallRangeSelect (Some 4) 10 3] /\
  jumpPrev quiet_env (demo_session 7) =
    mkOutcome (inr tt) (demo_focus 0) [CallLine; CallRangeSelect (Some 4) 14 0].
Proof.
  destruct (jump_on_quiet_session quiet_env (demo_session 7)
              (demo_doc "foo(bar, baz)" 8) demo_snippet) as (Hnext & Hprev).
  - reflexivity.
  - vm_compute. reflexivity.
  - reflexivity.
  - split; reflexivity.
  - intros p. reflexivity.
  - split.
    + rewrite (Hnext {| pos := 3; index := 2 |}) by reflexivity.
      vm_compute. reflexivity.
    + rewrite (Hprev {| pos := 5; index := 0 |}) by reflexivity.
      vm_compute. reflexivity.
Defined.

End Instances.

(** ** Navigation beyond the safe integers *)

Section FarIndex.

#[local] Existing Instance Flat.model.

(** The closed-document handler logs a failing detach: on a state that is
    active without a model, [detach] throws and the handler logs it. *)
Example closing_logs_a_failing_detach :
  let m := {| snippet := None; activted := true; startLnum := Some 3;
              lineCount := Some 5; uri := Some Flat.demo_uri; currIndex := 1;
              changedtick := Some 7 |} : Manager Flat.Snippet in
  onDidCloseTextDocument Flat.demo_uri Flat.quiet_env m =
    mkOutcome (inr tt) (unbound m) [LogError TypeError].
Proof. vm_compute. reflexivity. Qed.

(** Rounding to the nearest double, ties to even. *)
Example round_to_double_samples :
  round_to_double 9007199254740993 = 9007199254740992 /\
  round_to_double 9007199254740994 = 9007199254740994 /\
  round_to_double 9007199254740995 = 9007199254740996 /\
  round_to_double 18014398509481990 = 18014398509481992 /\
  round_to_double (-9007199254740993) = -9007199254740992 /\
  js_add 41 1 = 42 /\ js_sub 0 1 = -1.
Proof. vm_compute. repeat split; reflexivity. Qed.

(** At 2^53 the next index is 2^53 again: 2^53 + 1 is no double. *)
Example jumpNext_rounds_at_two53 :
  jumpNext Flat.far_env (Flat.far_session two53) =
    mkOutcome (inr tt) (Flat.far_session two53) [CallLine].
Proof. vm_compute. reflexivity. Qed.

Lemma far_next_index k :
  0 <= k <= two53 -> next_index k Flat.far_index = Z.min (k + 1) two53.
Proof.
  intros Hk. unfold next_index, js_add.
  destruct (Z.eqb_spec k Flat.far_index) as [Heq|_];
    [unfold Flat.far_index, two53 in *; lia|].
  destruct (Z.eq_dec k two53) as [->|Hne]; [vm_compute; reflexivity|].
  rewrite round_to_double_exact by (unfold two53 in *; lia).
  unfold two53 in *. lia.
Qed.

Lemma far_step k :
  0 <= k <= two53 ->
  final (jumpNext Flat.far_env (Flat.far_session k)) =
    Flat.far_session (Z.min (k + 1) two53).
Proof.
  intros Hk. rewrite jumpNext_jump_by.
  assert (Hon : on_bound_line Flat.far_env (Flat.far_session k))
    by (split; reflexivity).
  rewrite (jump_by_on_line next_index Flat.far_env (Flat.far_session k)
             Flat.far_snippet eq_refl Hon).
  cbv zeta.
  change (currIndex (Flat.far_session k)) with k.
  change (maxIndex Flat.far_snippet) with Flat.far_index.
  change (placeholders Flat.far_snippet)
    with [Flat.mkPlaceholder 0 Flat.far_index].
  rewrite (far_next_index k Hk).
  cbn [List.find].
  change (ph_index (Flat.mkPlaceholder 0 Flat.far_index)) with Flat.far_index.
  destruct (Z.eqb_spec Flat.far_index (Z.min (k + 1) two53)) as [Heq|_];
    [unfold Flat.far_index, two53 in *; lia|].
  reflexivity.
Qed.

Lemma far_chain n : forall k last,
  0 <= k <= two53 ->
  last = Z.min (k + Z.of_nat n) two53 ->
  jumps jumpNext Flat.far_index n (Flat.far_session k) (Flat.far_session last).
Proof.
  induction n as [|n IH]; intros k last Hk ->.
  - replace (Z.min (k + Z.of_nat 0) two53) with k by lia. apply jumps_done.
  - apply (jumps_step jumpNext Flat.far_index n Flat.far_env
             (Flat.far_session k) Flat.far_snippet);
      [reflexivity | reflexivity | split; reflexivity |].
    rewrite (far_step k Hk). apply IH; lia.
Qed.

(** C4 as stated fails beyond the safe integers: with a largest index of
    2^53 + 2 the focus, started at 0, is at 2^53 after 2^53 calls of
    [jumpNext] and stays there, so after [maxIndex + 1] calls it is not
    back at 0. *)
Lemma navigation_stalls_beyond_two53 :
  ~ (forall maxI (m m' : Manager Flat.Snippet),
       currIndex m = 0 ->
       jumps jumpNext maxI (Z.to_nat (maxI + 1)) m m' ->
       currIndex m' = 0).
Proof.
  intros Hclaim.
  assert (Hzero : 0 <= 0 <= two53) by (unfold two53; lia).
  assert (Hlast : two53 =
                  Z.min (0 + Z.of_nat (Z.to_nat (Flat.far_index + 1))) two53).
  { rewrite Z2Nat.id by (unfold Flat.far_index; lia).
    unfold Flat.far_index, two53. lia. }
  pose proof (Hclaim Flat.far_index (Flat.far_session 0)
                (Flat.far_session two53) eq_refl
                (far_chain (Z.to_nat (Flat.far_index + 1)) 0 two53 Hzero Hlast))
    as Hend.
  discriminate Hend.
Qed.

End FarIndex.
